(** * setup-sstart-env: a shallow embedding of [src/index.js]

    The action downloads a release archive of [sstart], unpacks it, writes
    the caller's configuration, runs [sstart env] and exports every
    [KEY=VALUE] line of its standard output.

    Conventions of the embedding.
    - A JavaScript string is its sequence of UTF-16 code units
      ([jsstring := list N]); [js "..."] turns a literal into one.
    - The object literal [{}] used as a map by [parseEnvOutput] is an
      association list in property-creation order, which is the order
      [Object.entries] enumerates identifier-shaped keys in.
    - Code that can throw returns a [completion].
    - The outside world (inputs, host platform, network, file system,
      subprocesses) is a record of oracles; the effects of [run] are
      recorded in an event log and in a finite map of files. *)

From Stdlib Require Import Ascii ZArith NArith Lia.
From stdpp Require Import base strings list gmap pretty.

Local Open Scope N_scope.

(** ** JavaScript strings *)

Definition jsstring : Type := list N.

Fixpoint js (s : string) : jsstring :=
  match s with
  | EmptyString => []
  | String a s' => N_of_ascii a :: js s'
  end.

Arguments js : simpl never.

(** [String.prototype.startsWith(searchString)] at position 0. *)
Fixpoint startsWith (s searchString : jsstring) {struct searchString}
  : bool :=
  match searchString, s with
  | [], _ => true
  | _ :: _, [] => false
  | p :: ps, c :: cs => (c =? p) && startsWith cs ps
  end.

(** ECMAScript [WhiteSpace]: TAB, VT, FF, ZWNBSP and the Unicode
    space separators (category Zs). *)
Definition isWhiteSpace (c : N) : bool :=
  (c =? 9) || (c =? 11) || (c =? 12) || (c =? 32) || (c =? 160)
  || (c =? 5760) || ((8192 <=? c) && (c <=? 8202))
  || (c =? 8239) || (c =? 8287) || (c =? 12288) || (c =? 65279).

(** ECMAScript [LineTerminator]: LF, CR, LS, PS. *)
Definition isLineTerminator (c : N) : bool :=
  (c =? 10) || (c =? 13) || (c =? 8232) || (c =? 8233).

(** What [String.prototype.trim] strips at both ends. *)
Definition isTrimmed (c : N) : bool := isWhiteSpace c || isLineTerminator c.

Fixpoint trimStart (s : jsstring) : jsstring :=
  match s with
  | [] => []
  | c :: s' => if isTrimmed c then trimStart s' else s
  end.

Definition trimEnd (s : jsstring) : jsstring := rev (trimStart (rev s)).

Definition trim (s : jsstring) : jsstring := trimEnd (trimStart s).

(** [s.split(sep)] for a separator of one code unit: always at least one
    piece, and one more piece than there are separators. *)
Fixpoint split (sep : N) (s : jsstring) : list jsstring :=
  match s with
  | [] => [[]]
  | c :: s' =>
      if c =? sep then [] :: split sep s'
      else match split sep s' with
           | piece :: pieces => (c :: piece) :: pieces
           | [] => [[c]]
           end
  end.

(** JavaScript truthiness of a string: [!s] holds exactly for [""]. *)
Definition falsy (s : jsstring) : bool :=
  match s with [] => true | _ :: _ => false end.

(** Template-literal rendering of an integer number. *)
Definition numberToString (z : Z) : jsstring := js (pretty z).

(** ** Completions: a value, or a thrown error with its [message] *)

Inductive js_error : Type :=
  | TypeError (message : jsstring)
  | Error (message : jsstring).

Definition message (e : js_error) : jsstring :=
  match e with TypeError m => m | Error m => m end.

Inductive completion (A : Type) : Type :=
  | Return (a : A)
  | Throw (e : js_error).
Arguments Return {A} a.
Arguments Throw {A} e.

#[global] Instance completion_ret : MRet completion := fun A a => Return a.

#[global] Instance completion_bind : MBind completion := fun A B k c =>
  match c with
  | Return a => k a
  | Throw e => Throw e
  end.

(** ** The regular expression of [parseEnvOutput]

    Anchored at both ends: group 1 is one character of [A-Za-z_] and then
    any number of [A-Za-z0-9_]; a literal [=] follows; group 2 is any
    number of [.] up to the end of the input. *)

Definition isAlpha_ (c : N) : bool :=
  ((65 <=? c) && (c <=? 90)) || ((97 <=? c) && (c <=? 122)) || (c =? 95).

Definition isDigit (c : N) : bool := (48 <=? c) && (c <=? 57).

Definition isWord (c : N) : bool := isAlpha_ c || isDigit c.

(** Longest prefix of [s] made of [p]-characters, and the rest. *)
Fixpoint span (p : N -> bool) (s : jsstring) : jsstring * jsstring :=
  match s with
  | [] => ([], [])
  | c :: s' =>
      if p c then let '(a, b) := span p s' in (c :: a, b) else ([], s)
  end.

(** The array [String.prototype.match] returns for a regular expression
    with two capture groups and no [g] flag. *)
Record match_array : Type := MatchArray {
  group0 : jsstring;
  group1 : jsstring;
  group2 : jsstring
}.

(** [s.match(re)] for that expression; [None] is [null].
    The greedy star of group 1 takes the longest run of word characters;
    backing off cannot help, because the character after a shorter run is
    a word character and not [=].  Without the [s] flag [.] matches no
    line terminator, and without the [m] flag [$] is the end of input. *)
Definition match_key_value (s : jsstring) : option match_array :=
  match s with
  | [] => None
  | c :: s' =>
      if isAlpha_ c then
        let '(word, rest) := span isWord s' in
        match rest with
        | 61 :: value =>
            if forallb (fun d => negb (isLineTerminator d)) value
            then Some (MatchArray s (c :: word) value)
            else None
        | _ => None
        end
      else None
  end.

(** [match[i]] for [i] in 1, 2: reading a property of [null] throws. *)
Definition index (m : option match_array) (i : nat)
  : completion jsstring :=
  match m with
  | None =>
      Throw (TypeError (js "Cannot read properties of null (reading '"
                        ++ numberToString (Z.of_nat i) ++ js "')"))
  | Some a =>
      Return (match i with
              | O => group0 a
              | S O => group1 a
              | _ => group2 a
              end)
  end.

(** ** Plain objects with string values *)

Abbreviation jsobject := (list (jsstring * jsstring)).

(** Creating or overwriting an own data property: an existing key keeps
    its place in the enumeration order. *)
Fixpoint define_own (key value : jsstring) (o : jsobject) : jsobject :=
  match o with
  | [] => [(key, value)]
  | (k, v) :: o' =>
      if decide (k = key) then (key, value) :: o'
      else (k, v) :: define_own key value o'
  end.

(** [o[key] = value] on an object created by [{}], for a string [value].
    The prototype's [__proto__] setter intercepts that one key, and
    ignores a value that is neither an object nor [null]; every other
    inherited property of [Object.prototype] is a writable data property,
    so the assignment creates an own property. *)
Definition set_property (key value : jsstring) (o : jsobject) : jsobject :=
  if decide (key = js "__proto__") then o else define_own key value o.

(** [o[key]] restricted to own properties. *)
Fixpoint get_own (key : jsstring) (o : jsobject) : option jsstring :=
  match o with
  | [] => None
  | (k, v) :: o' => if decide (k = key) then Some v else get_own key o'
  end.

(** ** Shapes of lines, as the specification words them *)

(** An identifier: a letter or underscore, then letters, digits and
    underscores. *)
Definition isIdentifier (key : jsstring) : bool :=
  match key with
  | [] => false
  | c :: word => isAlpha_ c && forallb isWord word
  end.

Definition noLineTerminator (value : jsstring) : bool :=
  forallb (fun d => negb (isLineTerminator d)) value.

(** ** [parseEnvOutput] *)

(** The body of the [for (const line of lines)] loop. *)
Definition parse_line (envVars : jsobject) (line : jsstring)
  : completion jsobject :=
  let trimmed := trim line in
  if falsy trimmed || startsWith trimmed (js "#") then
    Return envVars
  else
    let match_ := match_key_value trimmed in
    if match_ is Some _ then
      key ← index match_ 1;
      value ← index match_ 2;
      Return (set_property key value envVars)
    else Return envVars.

Fixpoint parse_lines (envVars : jsobject) (lines : list jsstring)
  : completion jsobject :=
  match lines with
  | [] => Return envVars
  | line :: lines' =>
      envVars' ← parse_line envVars line;
      parse_lines envVars' lines'
  end.

Definition parseEnvOutput (output : jsstring) : completion jsobject :=
  let envVars := [] in
  let lines := split 10 output in
  parse_lines envVars lines.

(** ** The outside world *)

Inductive protocol : Type := https | http.

(** What the action reads of an [http.IncomingMessage]: [res.statusCode],
    [res.headers.location] ([None] is [undefined]) and the bytes that
    [res.pipe] delivers. *)
Record response : Type := Response {
  statusCode : Z;
  location : option jsstring;
  body : jsstring
}.

(** [protocol.get(url, callback)]: the callback receives a response, or
    the request fails (a synchronous throw inside the promise executor or
    an ['error'] event; both reach [reject]). *)
Inductive get_outcome : Type :=
  | Responds (res : response)
  | RequestFails (e : js_error).

(** [exec.exec(commandLine, args, options)]: what the listeners receive
    and the exit code the promise resolves to, or the error it rejects
    with. *)
Record exec_outcome : Type := ExecOutcome {
  stdout : jsstring;
  stderr : jsstring;
  exit : completion Z
}.

(** The world answers a request by its protocol and URL, and a command
    by its command line and arguments. *)
Record World : Type := {
  (** [core.getInput('config', { required: true })] *)
  getInput_config : completion jsstring;
  (** [core.getInput('version')] *)
  getInput_version : jsstring;
  process_platform : jsstring;
  process_arch : jsstring;
  process_cwd : jsstring;
  path_join : jsstring -> jsstring -> jsstring;
  get : protocol -> jsstring -> get_outcome;
  (** the ['error'] event of [fs.createWriteStream(path)], if any *)
  stream_error : jsstring -> option js_error;
  exec : jsstring -> list jsstring -> exec_outcome;
  unlinkSync_error : jsstring -> option js_error;
  writeFileSync_error : jsstring -> option js_error
}.

(** Calls whose effect leaves the process, in the order they are made. *)
Inductive event : Type :=
  | Info (msg : jsstring)
  | Warning (msg : jsstring)
  | LogError (msg : jsstring)
  | SetFailed (msg : jsstring)
  | AddPath (dir : jsstring)
  | ExportVariable (name value : jsstring)
  | Get (p : protocol) (url : jsstring)
  | Exec (commandLine : jsstring) (args : list jsstring).

(** The files the action itself writes and deletes (what a subprocess
    does to the file system is not tracked), and the events so far. *)
Record state : Type := State {
  files : gmap jsstring jsstring;
  log : list event
}.

Definition emit (e : event) (st : state) : state :=
  State (files st) (log st ++ [e]).

Definition writeFile (path data : jsstring) (st : state) : state :=
  State (<[path := data]> (files st)) (log st).

Definition unlink (path : jsstring) (st : state) : state :=
  State (delete path (files st)) (log st).

(** ** [downloadFile] *)

Definition isRedirect (code : Z) : bool :=
  ((code =? 301) || (code =? 302) || (code =? 307) || (code =? 308))%Z.

(** [url.startsWith('https') ? https : http] *)
Definition protocolFor (url : jsstring) : protocol :=
  if startsWith url (js "https") then https else http.

(** One unit of [fuel] per request.  The promise settles with
    [Some (Return ())] on [resolve] and [Some (Throw e)] on [reject(e)];
    it is still pending ([None]) when the fuel runs out, which is how a
    redirect chain that never ends shows.  The state reached is returned
    in every case.  A [url] of [None] is [undefined]: [url.startsWith]
    throws inside the executor, which rejects the promise. *)
Fixpoint downloadFile (fuel : nat) (w : World) (url : option jsstring)
    (destPath : jsstring) (st : state) : option (completion ()) * state :=
  match fuel with
  | O => (None, st)
  | S fuel' =>
      match url with
      | None =>
          (Some (Throw (TypeError
                   (js "Cannot read properties of undefined (reading 'startsWith')"))),
           st)
      | Some url =>
          let protocol := protocolFor url in
          let st := emit (Get protocol url) st in
          match get w protocol url with
          | RequestFails e => (Some (Throw e), st)
          | Responds res =>
              if isRedirect (statusCode res) then
                downloadFile fuel' w (location res) destPath st
              else if negb (statusCode res =? 200)%Z then
                (Some (Throw (Error (js "Download failed with status "
                                     ++ numberToString (statusCode res)))), st)
              else
                match stream_error w destPath with
                | None => (Some (Return ()), writeFile destPath (body res) st)
                | Some e => (Some (Throw e), unlink destPath st)
                end
          end
      end
  end.

(** ** [run] *)

Definition normalizeVersion (version : jsstring) : jsstring :=
  if startsWith version (js "v") then version else js "v" ++ version.

(** The [let architecture = arch; if ... else if ...] block of [run]. *)
Definition architecture (arch : jsstring) : jsstring :=
  if decide (arch = js "x64") then js "amd64"
  else if decide (arch = js "arm64") then js "arm64"
  else arch.

Definition platformString (platform arch : jsstring) : jsstring :=
  let os := if decide (platform = js "darwin") then js "Darwin" else js "Linux" in
  let architecture := architecture arch in
  os ++ js "_" ++ architecture.

Definition downloadUrl (version platform arch : jsstring) : jsstring :=
  let normalizedVersion := normalizeVersion version in
  js "https://github.com/dirathea/sstart/releases/download/"
  ++ normalizedVersion ++ js "/sstart_" ++ platformString platform arch
  ++ js ".tar.gz".

(** [core.getInput('version') || '0.0.2'] *)
Definition version (w : World) : jsstring :=
  if falsy (getInput_version w) then js "0.0.2" else getInput_version w.

Definition archivePath (w : World) : jsstring :=
  path_join w (process_cwd w)
    (js "sstart_" ++ platformString (process_platform w) (process_arch w)
     ++ js ".tar.gz").

Definition binaryPath (w : World) : jsstring :=
  let binaryName := js "sstart" in
  path_join w (process_cwd w) binaryName.

Definition configPath (w : World) : jsstring :=
  path_join w (process_cwd w) (js ".sstart.yml").

(** The [for (const [key, value] of Object.entries(envVars))] loop. *)
Fixpoint export_entries (entries : jsobject) (count : Z) (st : state)
  : Z * state :=
  match entries with
  | [] => (count, st)
  | (key, value) :: entries' =>
      export_entries entries' (count + 1)%Z (emit (ExportVariable key value) st)
  end.

(** From the capture of the subprocess output to the end of the [try]
    block. *)
Definition export_output (output : jsstring) (st : state)
  : completion () * state :=
  if falsy (trim output) then
    (Return (), emit (Warning (js "sstart env produced no output")) st)
  else
    let st := emit (Info (js "Parsing environment variables from sstart env output...")) st in
    match parseEnvOutput output with
    | Throw e => (Throw e, st)
    | Return envVars =>
        let '(count, st) := export_entries envVars 0%Z st in
        (Return (), emit (Info (js "Successfully set " ++ numberToString count
                                ++ js " environment variable(s)")) st)
    end.

(** From the write of the configuration to the end of the [try] block. *)
Definition configure_and_run (w : World) (config : jsstring) (st : state)
  : completion () * state :=
  let configPath := configPath w in
  let binaryPath := binaryPath w in
  match writeFileSync_error w configPath with
  | Some e => (Throw e, st)
  | None =>
      let st := writeFile configPath config st in
      let st := emit (Info (js "Created .sstart.yml configuration file")) st in
      let st := emit (Info (js "Running sstart env...")) st in
      let st := emit (Exec binaryPath [js "env"]) st in
      let child := exec w binaryPath [js "env"] in
      let output := stdout child in
      let errorOutput := stderr child in
      match exit child with
      | Throw e => (Throw e, st)
      | Return exitCode =>
          if negb (exitCode =? 0)%Z then
            let st := emit (SetFailed (js "sstart env exited with code "
                                       ++ numberToString exitCode)) st in
            (Return (),
             if falsy errorOutput then st
             else emit (LogError (js "Error output: " ++ errorOutput)) st)
          else export_output output st
      end
  end.

(** From the extraction of the archive to the end of the [try] block. *)
Definition install_and_run (w : World) (config : jsstring) (st : state)
  : completion () * state :=
  let archivePath := archivePath w in
  let binaryPath := binaryPath w in
  let st := emit (Info (js "Extracting archive...")) st in
  let tar_args := [js "-xzf"; archivePath; js "-C"; process_cwd w] in
  let st := emit (Exec (js "tar") tar_args) st in
  let extracted :=
    match exit (exec w (js "tar") tar_args) with
    | Throw e => Throw e
    | Return _ =>
        match unlinkSync_error w archivePath with
        | Some e => Throw e
        | None => Return ()
        end
    end in
  match extracted with
  | Throw e =>
      (Return (),
       emit (SetFailed (js "Could not extract sstart binary: " ++ message e)) st)
  | Return _ =>
      let st := unlink archivePath st in
      let st := emit (Exec (js "chmod") [js "+x"; binaryPath]) st in
      match exit (exec w (js "chmod") [js "+x"; binaryPath]) with
      | Throw e => (Throw e, st)
      | Return _ =>
          let st := emit (AddPath (process_cwd w)) st in
          let st := emit (Info (js "Added " ++ process_cwd w ++ js " to PATH")) st in
          configure_and_run w config st
      end
  end.

(** The [try] block of [run]. *)
Definition run_try (fuel : nat) (w : World) (st : state)
  : option (completion ()) * state :=
  match getInput_config w with
  | Throw e => (Some (Throw e), st)
  | Return config =>
      let version := version w in
      let platform := process_platform w in
      let arch := process_arch w in
      if decide (platform ≠ js "darwin" ∧ platform ≠ js "linux") then
        (Some (Return ()),
         emit (SetFailed (js "Unsupported platform: " ++ platform
                 ++ js ". Only darwin and linux are supported.")) st)
      else
        let platformString := platformString platform arch in
        let st := emit (Info (js "Detected platform: " ++ platformString)) st in
        let normalizedVersion := normalizeVersion version in
        let downloadUrl := downloadUrl version platform arch in
        let archivePath := archivePath w in
        let st := emit (Info (js "Downloading sstart " ++ normalizedVersion
                              ++ js " from: " ++ downloadUrl)) st in
        match downloadFile fuel w (Some downloadUrl) archivePath st with
        | (None, st) => (None, st)
        | (Some (Throw e), st) =>
            (Some (Return ()),
             emit (SetFailed (js "Could not download sstart binary: "
                              ++ message e)) st)
        | (Some (Return _), st) =>
            let '(c, st) := install_and_run w config st in
            (Some c, st)
        end
  end.

(** [run]: the [try] block and its [catch (error)].  The boolean tells
    whether the promise returned by [run] has settled; it never rejects. *)
Definition run (fuel : nat) (w : World) (st : state) : bool * state :=
  match run_try fuel w st with
  | (None, st) => (false, st)
  | (Some (Return _), st) => (true, st)
  | (Some (Throw e), st) => (true, emit (SetFailed (message e)) st)
  end.

(** The run is reported as failed exactly when [core.setFailed] was
    called. *)
Definition isSetFailed (e : event) : bool :=
  match e with SetFailed _ => true | _ => false end.

Definition isExportVariable (e : event) : bool :=
  match e with ExportVariable _ _ => true | _ => false end.

Definition succeeded (st : state) : bool := negb (existsb isSetFailed (log st)).

Definition initial : state := State ∅ [].

(** [st'] is [st] after the events [evs]. *)
Definition extends_by (st : state) (evs : list event) (st' : state) : Prop :=
  log st' = log st ++ evs.

Definition returns {A} (c : completion A) : Prop := ∃ a, c = Return a.

Definition requests (urls : list jsstring) : list event :=
  (λ u, Get (protocolFor u) u) <$> urls.

(** [redirects w url hops target]: following redirect responses from
    [url] visits the URLs [hops] in turn and ends at [target]. *)
Inductive redirects (w : World) : jsstring → list jsstring → jsstring → Prop :=
  | redirects_here (url : jsstring) : redirects w url [] url
  | redirects_hop (url : jsstring) (res : response) (next : jsstring)
      (hops : list jsstring) (target : jsstring) :
      get w (protocolFor url) url = Responds res →
      isRedirect (statusCode res) = true →
      location res = Some next →
      redirects w next hops target →
      redirects w url (next :: hops) target.

(** ** An example host

    Linux on x64 unless told otherwise, default version, and a release
    server that answers the download URL with two redirects. *)

Definition example_get (p : protocol) (url : jsstring) : get_outcome :=
  if decide (url = downloadUrl (js "0.0.2") (js "linux") (js "x64")) then
    Responds (Response 302 (Some (js "https://cdn.example/a")) (js "Found"))
  else if decide (url = js "https://cdn.example/a") then
    Responds (Response 301 (Some (js "http://cdn.example/b")) (js "Moved"))
  else if decide (url = js "http://cdn.example/b") then
    Responds (Response 200 None (js "ARCHIVE"))
  else if decide (url = js "https://cdn.example/empty") then
    Responds (Response 204 None [])
  else if decide (url = js "https://cdn.example/loop") then
    Responds (Response 307 (Some (js "https://cdn.example/loop")) [])
  else Responds (Response 404 None (js "Not Found")).

Definition example_world (platform output : jsstring) : World := {|
  getInput_config := Return (js "providers: []");
  getInput_version := [];
  process_platform := platform;
  process_arch := js "x64";
  process_cwd := js "/work";
  path_join := λ dir name, dir ++ js "/" ++ name;
  get := example_get;
  stream_error := λ _, None;
  exec := λ commandLine _,
    ExecOutcome (if decide (commandLine = js "/work/sstart") then output else [])
                [] (Return 0%Z);
  unlinkSync_error := λ _, None;
  writeFileSync_error := λ _, None
|}.

(** ** Shapes of results *)

(** What every entry of a parsed object looks like: an identifier other
    than [__proto__] as key, and a value without line terminators that
    does not end in a character [trim] strips. *)
Definition wellformed_entry (kv : jsstring * jsstring) : Prop :=
  isIdentifier kv.1 = true
  ∧ kv.1 ≠ js "__proto__"
  ∧ noLineTerminator kv.2 = true
  ∧ ∀ c, last kv.2 = Some c → isTrimmed c = false.

(** Events that neither fail the run nor export a variable. *)
Definition isQuiet (e : event) : bool :=
  negb (isSetFailed e) && negb (isExportVariable e).

(** The variables a list of events exports, in order. *)
Definition exported (evs : list event) : jsobject :=
  omap (λ e, match e with
             | ExportVariable name value => Some (name, value)
             | _ => None
             end) evs.

(** The ways the events of a run end, after its quiet events: nothing
    more, a failure, a failure with the error output of the subprocess,
    or the export of well-formed entries with distinct names and the line
    that counts them. *)
Inductive ending : list event → Prop :=
  | ending_quiet : ending []
  | ending_failed (msg : jsstring) : ending [SetFailed msg]
  | ending_failed_logged (msg err : jsstring) :
      ending [SetFailed msg; LogError err]
  | ending_exported (entries : jsobject) :
      NoDup entries.*1 →
      Forall wellformed_entry entries →
      ending (((λ kv, ExportVariable kv.1 kv.2) <$> entries)
              ++ [Info (js "Successfully set "
                        ++ numberToString (Z.of_nat (length entries))
                        ++ js " environment variable(s)")]).

(** [st'] is [st] after quiet events. *)
Definition quietly (st st' : state) : Prop :=
  ∃ quiet, log st' = log st ++ quiet ∧ forallb isQuiet quiet = true.

(** [st'] is [st] after quiet events and then an [ending]. *)
Definition ends_well (st st' : state) : Prop :=
  ∃ quiet tail,
    log st' = log st ++ quiet ++ tail
    ∧ forallb isQuiet quiet = true
    ∧ ending tail.

(** What a step of [run] may leave behind: quiet events if it throws, for
    the [catch] to add the failure; quiet events and an ending if it
    returns. *)
Definition step_ends_well (st : state) (r : completion () * state) : Prop :=
  match r.1 with
  | Throw _ => quietly st r.2
  | Return _ => ends_well st r.2
  end.

(** [st'] differs from [st] on the files [paths] at most. *)
Definition touches_only (paths : list jsstring) (st st' : state) : Prop :=
  ∀ p, p ∉ paths → files st' !! p = files st !! p.

(** ** The helpers of the test suite

    The test file keeps its own copies of the URL construction and a
    parser for a JSON payload. *)

Module TestHelpers.

Definition normalizeVersion (version : jsstring) : jsstring :=
  if startsWith version (js "v") then version else js "v" ++ version.

Definition normalizeArchitecture (arch : jsstring) : jsstring :=
  if decide (arch = js "x64") then js "x86_64"
  else if decide (arch = js "arm64") then js "arm64"
  else arch.

Definition getPlatformString (platform arch : jsstring) : jsstring :=
  let os := if decide (platform = js "darwin") then js "Darwin" else js "Linux" in
  let architecture := normalizeArchitecture arch in
  os ++ js "_" ++ architecture.

Definition buildDownloadUrl (version platform arch : jsstring) : jsstring :=
  let normalizedVersion := normalizeVersion version in
  let platformString := getPlatformString platform arch in
  js "https://github.com/dirathea/sstart/releases/download/"
  ++ normalizedVersion ++ js "/sstart_" ++ platformString ++ js ".tar.gz".

(** The values [JSON.parse] returns; [number] stands for the numbers of
    JavaScript, which the helper never looks into. *)
Unset Elimination Schemes.
Inductive jsvalue (number : Type) : Type :=
  | JNull
  | JBool (b : bool)
  | JNumber (x : number)
  | JString (s : jsstring)
  | JArray (items : list (jsvalue number))
  | JObject (props : list (jsstring * jsvalue number)).
Set Elimination Schemes.
Arguments JNull {number}.
Arguments JBool {number} b.
Arguments JNumber {number} x.
Arguments JString {number} s.
Arguments JArray {number} items.
Arguments JObject {number} props.

(** [typeof v === 'object'] *)
Definition typeof_object {number} (v : jsvalue number) : bool :=
  match v with
  | JNull | JArray _ | JObject _ => true
  | JBool _ | JNumber _ | JString _ => false
  end.

Definition isNull {number} (v : jsvalue number) : bool :=
  match v with JNull => true | _ => false end.

Definition isArray {number} (v : jsvalue number) : bool :=
  match v with JArray _ => true | _ => false end.

(** The JSON variant of [parseEnvOutput]; [JSON_parse] is the built-in
    [JSON.parse], which returns a value or throws. *)
Definition parseEnvOutput {number}
    (JSON_parse : jsstring → completion (jsvalue number))
    (output : jsstring) : completion (jsvalue number) :=
  let attempt :=
    let trimmed := trim output in
    if falsy trimmed then Return (JObject [])
    else
      envVars ← JSON_parse trimmed;
      if negb (typeof_object envVars) || isNull envVars || isArray envVars
      then Throw (Error (js "Expected JSON object"))
      else Return envVars in
  match attempt with
  | Return envVars => Return envVars
  | Throw error =>
      Throw (Error (js "Failed to parse JSON output from sstart env: "
                    ++ message error))
  end.

End TestHelpers.

(** ** The URL helper for hyphenated archive names

    A copy of the test suite builds the archive name from the bare
    version and lower-case labels.  [toLowerCase] is
    [String.prototype.toLowerCase]. *)

Module HyphenatedHelpers.

Definition normalizeVersion (version : jsstring) : jsstring :=
  if startsWith version (js "v") then version else js "v" ++ version.

Definition normalizeArchitecture (arch : jsstring) : jsstring :=
  if decide (arch = js "x64") then js "amd64"
  else if decide (arch = js "arm64") then js "arm64"
  else arch.

(** [version.startsWith('v') ? version.slice(1) : version] *)
Definition versionWithoutV (version : jsstring) : jsstring :=
  if startsWith version (js "v") then drop 1 version else version.

Definition buildDownloadUrl (toLowerCase : jsstring → jsstring)
    (version platform arch : jsstring) : jsstring :=
  let normalizedVersion := normalizeVersion version in
  let versionWithoutV := versionWithoutV version in
  let os := if decide (platform = js "darwin") then js "darwin" else js "linux" in
  let architecture := toLowerCase (normalizeArchitecture arch) in
  js "https://github.com/dirathea/sstart/releases/download/"
  ++ normalizedVersion ++ js "/sstart-" ++ versionWithoutV ++ js "-" ++ os
  ++ js "-" ++ architecture ++ js ".tar.gz".

End HyphenatedHelpers.

(** ** A second example host

    Linux on x64, with the network, the subprocesses and the failure of
    [unlinkSync] chosen by the scenario. *)

Definition scenario_get (p : protocol) (url : jsstring) : get_outcome :=
  if decide (url = downloadUrl (js "0.0.2") (js "linux") (js "x64")) then
    Responds (Response 200 None (js "ARCHIVE"))
  else if decide (url = js "https://cdn.example/nowhere") then
    Responds (Response 302 None (js "Found"))
  else if decide (url = js "https://cdn.example/down") then
    RequestFails (Error (js "connect ECONNREFUSED"))
  else Responds (Response 404 None (js "Not Found")).

Definition scenario (network : protocol → jsstring → get_outcome)
    (commands : jsstring → exec_outcome) (unlink_error : option js_error)
  : World := {|
  getInput_config := Return (js "providers: []");
  getInput_version := js "0.0.2";
  process_platform := js "linux";
  process_arch := js "x64";
  process_cwd := js "/work";
  path_join := λ dir name, dir ++ js "/" ++ name;
  get := network;
  stream_error := λ _, None;
  exec := λ commandLine _, commands commandLine;
  unlinkSync_error := λ _, unlink_error;
  writeFileSync_error := λ _, None
|}.

(** Every subprocess exits with code 0; [sstart env] prints [output]. *)
Definition commands_ok (output : jsstring) (commandLine : jsstring)
  : exec_outcome :=
  ExecOutcome (if decide (commandLine = js "/work/sstart") then output else [])
              [] (Return 0%Z).

(** * Properties *)

(** ** Strings *)

Lemma trimStart_snoc (l : jsstring) (c : N) :
  isTrimmed c = false → trimStart (l ++ [c]) = trimStart l ++ [c].
Proof.
  intros Hc. induction l as [|a l IH]; simpl.
  - by rewrite Hc.
  - by destruct (isTrimmed a).
Qed.

Lemma trimEnd_cons (c : N) (s : jsstring) :
  isTrimmed c = false → trimEnd (c :: s) = c :: trimEnd s.
Proof.
  intros Hc. unfold trimEnd. simpl.
  by rewrite trimStart_snoc, rev_app_distr.
Qed.

Lemma trim_keeps_hash (line : jsstring) :
  startsWith line (js "#") = true → startsWith (trim line) (js "#") = true.
Proof.
  change (js "#") with [35]. destruct line as [|c cs]; simpl; [done|].
  rewrite andb_true_r. intros ->%N.eqb_eq.
  unfold trim. simpl. by rewrite trimEnd_cons.
Qed.

Lemma split_nonempty (sep : N) (s : jsstring) : split sep s ≠ [].
Proof.
  destruct s as [|c s]; simpl; [done|].
  destruct (c =? sep); [done|]. by destruct (split sep s).
Qed.

Lemma split_app (sep : N) (a b : jsstring) :
  split sep (a ++ sep :: b) = split sep a ++ split sep b.
Proof.
  induction a as [|c a IH]; simpl.
  - by rewrite N.eqb_refl.
  - destruct (c =? sep); [by rewrite IH|].
    rewrite IH. pose proof (split_nonempty sep a) as Hne.
    by destruct (split sep a).
Qed.

Lemma split_no_sep (sep : N) (s : jsstring) :
  sep ∉ s → split sep s = [s].
Proof.
  induction s as [|c s IH]; simpl; [done|].
  intros Hnot. apply not_elem_of_cons in Hnot as [Hne Hs].
  destruct (N.eqb_spec c sep) as [->|_]; [done|]. by rewrite IH.
Qed.

(** ** The regular expression *)

Lemma span_spec (p : N → bool) (s a b : jsstring) :
  span p s = (a, b) →
  s = a ++ b ∧ forallb p a = true ∧ (∀ c b', b = c :: b' → p c = false).
Proof.
  revert a b. induction s as [|c s IH]; simpl; intros a b.
  - intros [= <- <-]. by repeat split.
  - destruct (p c) eqn:Hc.
    + destruct (span p s) as [a' b'] eqn:Hs. intros [= <- <-].
      destruct (IH _ _ eq_refl) as (-> & Ha & Hb).
      repeat split; simpl; [by rewrite Hc|done].
    + intros [= <- <-]. repeat split. by intros ? ? [= <- _].
Qed.

Lemma span_stop (p : N → bool) (a : jsstring) (c : N) (b : jsstring) :
  forallb p a = true → p c = false → span p (a ++ c :: b) = (a, c :: b).
Proof.
  intros Ha Hc. induction a as [|x a IH]; simpl in *.
  - by rewrite Hc.
  - apply andb_prop in Ha as [-> Ha]. by rewrite IH.
Qed.

(** A match is exactly the shape identifier, [=], rest without line
    terminators; the groups are the identifier and the rest. *)
Lemma match_key_value_Some (s : jsstring) (m : match_array) :
  match_key_value s = Some m →
  ∃ key value, s = key ++ 61 :: value ∧ isIdentifier key = true
               ∧ noLineTerminator value = true ∧ m = MatchArray s key value.
Proof.
  destruct s as [|c s]; simpl; [done|].
  destruct (isAlpha_ c) eqn:Hc; [|done].
  destruct (span isWord s) as [word rest] eqn:Hspan.
  destruct (span_spec _ _ _ _ Hspan) as (-> & Hword & _).
  destruct rest as [|d value]; [done|].
  destruct (N.eqb_spec d 61) as [->|Hd].
  - simpl. fold (noLineTerminator value).
    destruct (noLineTerminator value) eqn:Hv; [|done].
    intros [= <-]. exists (c :: word), value. simpl. by rewrite Hc, Hword.
  - intros H. exfalso.
    destruct d as [|d]; [done|].
    do 6 (destruct d as [d|d|]; try done).
Qed.

Lemma match_key_value_shape (key value : jsstring) :
  isIdentifier key = true → noLineTerminator value = true →
  match_key_value (key ++ 61 :: value)
  = Some (MatchArray (key ++ 61 :: value) key value).
Proof.
  destruct key as [|c word]; simpl; [done|].
  intros [Hc Hword]%andb_prop Hv. rewrite Hc.
  rewrite span_stop by done. simpl.
  fold (noLineTerminator value). by rewrite Hv.
Qed.

(** ** Objects *)

Lemma get_own_define_own (key value : jsstring) (o : jsobject) :
  get_own key (define_own key value o) = Some value.
Proof.
  induction o as [|[k v] o IH]; simpl.
  - by rewrite decide_True.
  - destruct (decide (k = key)); simpl.
    + by rewrite decide_True.
    + by rewrite decide_False.
Qed.

Lemma get_own_define_own_ne (key key' value : jsstring) (o : jsobject) :
  key ≠ key' → get_own key' (define_own key value o) = get_own key' o.
Proof.
  intros Hne. induction o as [|[k v] o IH]; simpl.
  - by rewrite decide_False.
  - destruct (decide (k = key)) as [->|]; simpl.
    + by rewrite !decide_False.
    + by rewrite IH.
Qed.

Lemma define_own_keys (key value : jsstring) (o : jsobject) :
  (define_own key value o).*1
  = if decide (key ∈ o.*1) then o.*1 else o.*1 ++ [key].
Proof.
  induction o as [|[k v] o IH].
  - done.
  - cbn [define_own]. rewrite (fmap_cons fst (k, v) o). cbn [fst].
    destruct (decide (k = key)) as [->|Hne].
    + rewrite fmap_cons. cbn [fst].
      destruct (decide (key ∈ key :: o.*1)) as [|Hn]; [done|].
      destruct Hn. apply list_elem_of_here.
    + rewrite fmap_cons, IH. cbn [fst].
      destruct (decide (key ∈ o.*1)) as [Hin|Hnin];
        destruct (decide (key ∈ k :: o.*1)) as [Hin'|Hnin']; try done.
      * destruct Hnin'. by apply list_elem_of_further.
      * apply elem_of_cons in Hin' as [?|?]; congruence.
Qed.

Lemma define_own_NoDup (key value : jsstring) (o : jsobject) :
  NoDup o.*1 → NoDup (define_own key value o).*1.
Proof.
  intros Hnd. rewrite define_own_keys.
  destruct (decide (key ∈ o.*1)); [done|].
  apply NoDup_app. split_and!; [done| |apply NoDup_singleton].
  intros x Hx ->%list_elem_of_singleton. done.
Qed.

Lemma set_property_NoDup (key value : jsstring) (o : jsobject) :
  NoDup o.*1 → NoDup (set_property key value o).*1.
Proof.
  unfold set_property. destruct (decide _); [done|]. apply define_own_NoDup.
Qed.

(** ** The line-oriented parser *)

(** What one line does to the object: nothing, or one assignment of the
    two groups of a match of the trimmed line. *)
Lemma parse_line_cases (envVars : jsobject) (line : jsstring) :
  parse_line envVars line = Return envVars
  ∨ ∃ key value, trim line = key ++ 61 :: value
                 ∧ isIdentifier key = true ∧ noLineTerminator value = true
                 ∧ parse_line envVars line
                   = Return (set_property key value envVars).
Proof.
  unfold parse_line.
  destruct (falsy (trim line) || startsWith (trim line) (js "#")); [by left|].
  destruct (match_key_value (trim line)) as [m|] eqn:Hm; [|by left].
  apply match_key_value_Some in Hm as (key & value & Heq & Hk & Hv & ->).
  right. by exists key, value.
Qed.

Lemma parse_line_total (envVars : jsobject) (line : jsstring) :
  ∃ envVars', parse_line envVars line = Return envVars'.
Proof.
  destruct (parse_line_cases envVars line) as [H|(k & v & _ & _ & _ & H)];
    rewrite H; by eexists.
Qed.

Lemma parse_lines_total (lines : list jsstring) (envVars : jsobject) :
  ∃ envVars', parse_lines envVars lines = Return envVars'.
Proof.
  revert envVars. induction lines as [|line lines IH]; intros envVars; simpl.
  - by eexists.
  - destruct (parse_line_total envVars line) as [o ->]. apply IH.
Qed.

Lemma parse_lines_app (before after : list jsstring) (envVars : jsobject) :
  parse_lines envVars (before ++ after)
  = envVars' ← parse_lines envVars before; parse_lines envVars' after.
Proof.
  revert envVars. induction before as [|line before IH]; intros envVars; simpl.
  - done.
  - destruct (parse_line envVars line) as [o|e]; simpl; [apply IH|done].
Qed.

Lemma identifier_head (key : jsstring) :
  isIdentifier key = true → ∃ c word, key = c :: word ∧ isAlpha_ c = true.
Proof.
  destruct key as [|c word]; simpl; [done|].
  intros [Hc _]%andb_prop. by exists c, word.
Qed.

Lemma alpha_not_hash (c : N) : isAlpha_ c = true → (c =? 35) = false.
Proof.
  intros Hc. destruct (N.eqb_spec c 35) as [->|]; [|done]. by vm_compute in Hc.
Qed.

(** A trimmed line of the shape identifier, [=], rest is assigned. *)
Lemma parse_line_assigns (envVars : jsobject) (line key rest : jsstring) :
  trim line = key ++ 61 :: rest →
  isIdentifier key = true → noLineTerminator rest = true →
  parse_line envVars line = Return (set_property key rest envVars).
Proof.
  intros Htrim Hkey Hrest. unfold parse_line. rewrite Htrim.
  destruct (identifier_head key Hkey) as (c & word & -> & Hc).
  change (js "#") with [35]. simpl falsy. simpl startsWith.
  rewrite (alpha_not_hash c Hc). simpl orb. cbv iota.
  change (c :: word ++ 61 :: rest) with ((c :: word) ++ 61 :: rest).
  by rewrite match_key_value_shape.
Qed.

Lemma parse_line_skips (envVars : jsobject) (line : jsstring) :
  trim line = [] ∨ startsWith line (js "#") = true
  ∨ (∀ key rest, isIdentifier key = true → trim line ≠ key ++ 61 :: rest) →
  parse_line envVars line = Return envVars.
Proof.
  intros [Hblank|[Hhash|Hshape]].
  - unfold parse_line. by rewrite Hblank.
  - unfold parse_line. rewrite (trim_keeps_hash line Hhash).
    by rewrite orb_true_r.
  - destruct (parse_line_cases envVars line)
      as [H|(k & v & Heq & Hk & _ & _)]; [done|].
    by destruct (Hshape k v Hk).
Qed.

Lemma match_key_value_iff (s : jsstring) (m : match_array) :
  match_key_value s = Some m ↔
  ∃ key value, s = key ++ 61 :: value ∧ isIdentifier key = true
               ∧ noLineTerminator value = true ∧ m = MatchArray s key value.
Proof.
  split; [apply match_key_value_Some|].
  intros (key & value & -> & Hkey & Hvalue & ->).
  by apply match_key_value_shape.
Qed.

Lemma filter_key_absent (key : jsstring) (o : jsobject) :
  key ∉ o.*1 → filter (λ kv, kv.1 = key) o = [].
Proof.
  induction o as [|[k v] o IH]; [done|].
  rewrite fmap_cons. cbn [fst]. intros [Hne Hnin]%not_elem_of_cons.
  rewrite filter_cons_False by (simpl; congruence). by apply IH.
Qed.

(** With distinct keys, the entry [get_own] finds is the only one. *)
Lemma filter_key_NoDup (key value : jsstring) (o : jsobject) :
  NoDup o.*1 → get_own key o = Some value →
  filter (λ kv, kv.1 = key) o = [(key, value)].
Proof.
  induction o as [|[k v] o IH]; [done|].
  rewrite fmap_cons. cbn [fst get_own].
  intros [Hnin Hnd]%NoDup_cons.
  destruct (decide (k = key)) as [->|Hne].
  - intros [= ->]. rewrite filter_cons_True by done.
    by rewrite filter_key_absent.
  - intros Hget. rewrite filter_cons_False by done. by apply IH.
Qed.

Lemma set_property_other (key key' value : jsstring) (o : jsobject) :
  key ≠ key' → get_own key' (set_property key value o) = get_own key' o.
Proof.
  intros Hne. unfold set_property. destruct (decide _); [done|].
  by apply get_own_define_own_ne.
Qed.

(** Lines that do not assign [key] leave its entry alone. *)
Lemma parse_lines_other_key (key : jsstring) (lines : list jsstring) :
  Forall (λ l, ∀ rest, trim l ≠ key ++ 61 :: rest) lines →
  ∀ envVars envVars',
    parse_lines envVars lines = Return envVars' →
    get_own key envVars' = get_own key envVars.
Proof.
  induction 1 as [|line lines Hline _ IH]; intros envVars envVars'; simpl.
  - by intros [= ->].
  - destruct (parse_line_cases envVars line)
      as [->|(k & v & Htrim & _ & _ & ->)]; simpl.
    + apply IH.
    + intros Hrest. rewrite (IH _ _ Hrest). apply set_property_other.
      intros ->. by destruct (Hline v).
Qed.

Lemma parse_lines_NoDup (lines : list jsstring) (envVars envVars' : jsobject) :
  NoDup envVars.*1 → parse_lines envVars lines = Return envVars' →
  NoDup envVars'.*1.
Proof.
  revert envVars. induction lines as [|line lines IH]; intros envVars Hnd; simpl.
  - by intros [= <-].
  - destruct (parse_line_cases envVars line)
      as [->|(k & v & _ & _ & _ & ->)]; simpl.
    + by apply IH.
    + apply IH. by apply set_property_NoDup.
Qed.

(** Every key other than [__proto__] ends up with the value of the last
    line that assigns it, and no key is listed twice. *)
Lemma parse_lines_last_wins (envVars : jsobject) (before after : list jsstring)
    (line key value : jsstring) :
  key ≠ js "__proto__" →
  trim line = key ++ 61 :: value →
  isIdentifier key = true → noLineTerminator value = true →
  Forall (λ l, ∀ rest, trim l ≠ key ++ 61 :: rest) after →
  ∃ envVars',
    parse_lines envVars (before ++ line :: after) = Return envVars'
    ∧ get_own key envVars' = Some value
    ∧ (NoDup envVars.*1 →
       filter (λ kv, kv.1 = key) envVars' = [(key, value)]).
Proof.
  intros Hproto Htrim Hkey Hvalue Hafter.
  destruct (parse_lines_total (before ++ line :: after) envVars) as [o Ho].
  exists o. split; [done|].
  cut (get_own key o = Some value).
  { intros Hget. split; [done|]. intros Hnd.
    apply filter_key_NoDup; [|done]. by eapply parse_lines_NoDup. }
  rewrite parse_lines_app in Ho.
  destruct (parse_lines_total before envVars) as [o1 Ho1].
  rewrite Ho1 in Ho. simpl in Ho.
  rewrite (parse_line_assigns o1 line key value Htrim Hkey Hvalue) in Ho.
  simpl in Ho. rewrite (parse_lines_other_key key after Hafter _ _ Ho).
  unfold set_property. rewrite decide_False by done.
  apply get_own_define_own.
Qed.

(** ** Claims about the version, the URL and the parser *)

(** C2. Version normalization returns a string that starts with [v]
    unchanged, prepends exactly one [v] to any other string, and is
    therefore idempotent. *)
Theorem normalizeVersion_idempotent (version : jsstring) :
  (startsWith version (js "v") = true → normalizeVersion version = version)
  ∧ (startsWith version (js "v") = false →
     normalizeVersion version = js "v" ++ version)
  ∧ normalizeVersion (normalizeVersion version) = normalizeVersion version.
Proof.
  unfold normalizeVersion.
  destruct (startsWith version (js "v")) eqn:Hv.
  - split_and!; [done|done|by rewrite Hv].
  - split_and!; [done|done|].
    change (js "v" ++ version) with (118 :: version).
    change (js "v") with [118]. simpl. by rewrite ?N.eqb_refl.
Qed.

Lemma normalizeVersion_idempotent_witness :
  normalizeVersion (js "v0.0.2") = js "v0.0.2"
  ∧ normalizeVersion (js "0.0.2") = js "v0.0.2".
Proof.
  split.
  - apply (proj1 (normalizeVersion_idempotent (js "v0.0.2"))). reflexivity.
  - apply (proj1 (proj2 (normalizeVersion_idempotent (js "0.0.2")))).
    reflexivity.
Defined.

(** C3. For version 0.0.2 on darwin with architecture x64 the download
    URL is the release path of tag v0.0.2 with the archive name
    sstart_Darwin_amd64.tar.gz. *)
Theorem downloadUrl_darwin_x64 :
  downloadUrl (js "0.0.2") (js "darwin") (js "x64")
  = js "https://github.com/dirathea/sstart/releases/download/v0.0.2/sstart_Darwin_amd64.tar.gz".
Proof. vm_compute. reflexivity. Qed.

(** C6. Two [KEY=value] lines give the two entries; a line that is blank,
    that starts with [#], or whose trimmed text is not an identifier
    followed by [=], changes nothing and raises nothing, wherever it
    stands in the input. *)
Theorem parseEnvOutput_skips_lines :
  parseEnvOutput (js "KEY1=value1" ++ [10] ++ js "KEY2=value2")
  = Return [(js "KEY1", js "value1"); (js "KEY2", js "value2")]
  ∧ parseEnvOutput (js "not-a-valid-key") = Return []
  ∧ ∀ line : jsstring,
      (trim line = [] ∨ startsWith line (js "#") = true
       ∨ (∀ key rest, isIdentifier key = true →
                      trim line ≠ key ++ 61 :: rest)) →
      (∀ envVars, parse_line envVars line = Return envVars)
      ∧ (∀ envVars before after,
           parse_lines envVars (before ++ line :: after)
           = parse_lines envVars (before ++ after))
      ∧ (10 ∉ line →
         ∀ a b, parseEnvOutput (a ++ [10] ++ line ++ [10] ++ b)
                = parseEnvOutput (a ++ [10] ++ b)).
Proof.
  split; [by vm_compute|]. split; [by vm_compute|].
  intros line Hskip.
  assert (Hline : ∀ envVars, parse_line envVars line = Return envVars)
    by (intros; by apply parse_line_skips).
  assert (Hlines : ∀ envVars before after,
             parse_lines envVars (before ++ line :: after)
             = parse_lines envVars (before ++ after)).
  { intros envVars before after. rewrite !parse_lines_app.
    destruct (parse_lines envVars before) as [o|e]; simpl; [|done].
    by rewrite Hline. }
  split_and!; [done|done|].
  intros Hnl a b. unfold parseEnvOutput. simpl.
  rewrite !split_app. rewrite (split_no_sep 10 line Hnl).
  apply Hlines.
Qed.

Lemma parseEnvOutput_skips_lines_witness :
  parse_line [(js "A", js "1")] (js "# comment") = Return [(js "A", js "1")]
  ∧ parse_line [] (js "   ") = Return []
  ∧ parseEnvOutput (js "A=1" ++ [10] ++ js "no equals sign" ++ [10] ++ js "B=2")
    = parseEnvOutput (js "A=1" ++ [10] ++ js "B=2").
Proof.
  split_and!.
  - apply (proj2 (proj2 parseEnvOutput_skips_lines) (js "# comment")).
    right. left. reflexivity.
  - apply (proj2 (proj2 parseEnvOutput_skips_lines) (js "   ")).
    left. reflexivity.
  - apply (proj2 (proj2 parseEnvOutput_skips_lines) (js "no equals sign")).
    + right. right. intros key rest Hkey Heq.
      assert (H : 61 ∈ trim (js "no equals sign")).
      { rewrite Heq. apply elem_of_app. right. apply list_elem_of_here. }
      revert H. refine (bool_decide_unpack (61 ∉ _) _). vm_compute. exact I.
    + refine (bool_decide_unpack (10 ∉ _) _). vm_compute. exact I.
Defined.

(** C7. When the trimmed line is an identifier other than [__proto__],
    then [=], then a rest without line terminators, the [=] is the first
    one of the line and the value stored under the identifier is that
    rest, character for character; the rest may be empty and may contain
    [=]. *)
Theorem parse_line_value_verbatim (envVars : jsobject)
    (line key rest : jsstring) :
  trim line = key ++ 61 :: rest →
  isIdentifier key = true →
  noLineTerminator rest = true →
  key ≠ js "__proto__" →
  (61 ∉ key)
  ∧ (∃ envVars', parse_line envVars line = Return envVars'
                 ∧ get_own key envVars' = Some rest).
Proof.
  intros Htrim Hkey Hrest Hproto. split.
  - destruct key as [|c word]; [done|]. simpl in Hkey.
    apply andb_prop in Hkey as [Hc Hword].
    rewrite forallb_forall in Hword.
    intros [<-|Hin]%elem_of_cons; [by vm_compute in Hc|].
    apply list_elem_of_In, Hword in Hin. by vm_compute in Hin.
  - exists (set_property key rest envVars). split.
    + by apply parse_line_assigns.
    + unfold set_property. rewrite decide_False by done.
      apply get_own_define_own.
Qed.

Lemma parse_line_value_verbatim_witness :
  (∃ envVars', parse_line [(js "K", js "old")] (js " K=a=b ") = Return envVars'
               ∧ get_own (js "K") envVars' = Some (js "a=b"))
  ∧ (∃ envVars', parse_line [] (js "EMPTY=") = Return envVars'
                 ∧ get_own (js "EMPTY") envVars' = Some []).
Proof.
  split.
  - apply (parse_line_value_verbatim [(js "K", js "old")]
             (js " K=a=b ") (js "K") (js "a=b")); by vm_compute.
  - apply (parse_line_value_verbatim [] (js "EMPTY=") (js "EMPTY") []);
      by vm_compute.
Defined.

(** The line [KEY=value ] with a trailing space is an identifier, [=] and
    the rest [value ], yet the value stored is [value]: the line is
    trimmed before it is matched. *)
Lemma parse_line_trims_the_value :
  let line := js "KEY=value " in
  line = js "KEY" ++ 61 :: js "value "
  ∧ isIdentifier (js "KEY") = true
  ∧ parse_line [] line = Return [(js "KEY", js "value")]
  ∧ get_own (js "KEY") [(js "KEY", js "value")] ≠ Some (js "value ").
Proof. by vm_compute. Qed.

(** C8. On two lines that both assign [__proto__] the parser returns an
    object without any entry, although both lines match with key
    [__proto__]. *)
Theorem parseEnvOutput_proto_lost :
  let output := js "__proto__=a" ++ [10] ++ js "__proto__=b" in
  split 10 output = [js "__proto__=a"; js "__proto__=b"]
  ∧ group1 <$> match_key_value (trim (js "__proto__=a")) = Some (js "__proto__")
  ∧ group1 <$> match_key_value (trim (js "__proto__=b")) = Some (js "__proto__")
  ∧ parseEnvOutput output = Return [].
Proof. by vm_compute. Qed.

(** C10. The parser returns an object for every input, so the export
    step after it never takes the error path. *)
Theorem parseEnvOutput_total (output : jsstring) :
  (∃ envVars, parseEnvOutput output = Return envVars)
  ∧ ∀ st, (export_output output st).1 = Return ().
Proof.
  assert (Htotal : ∃ envVars, parseEnvOutput output = Return envVars)
    by apply parse_lines_total.
  split; [done|]. intros st. unfold export_output.
  destruct (falsy (trim output)); [done|].
  destruct Htotal as [envVars ->].
  by destruct (export_entries envVars 0 _).
Qed.

(** ** Claims about the download *)

Lemma downloadFile_response (fuel : nat) (w : World) (url destPath : jsstring)
    (st : state) (res : response) :
  get w (protocolFor url) url = Responds res →
  downloadFile (S fuel) w (Some url) destPath st
  = let st := emit (Get (protocolFor url) url) st in
    if isRedirect (statusCode res) then
      downloadFile fuel w (location res) destPath st
    else if negb (statusCode res =? 200)%Z then
      (Some (Throw (Error (js "Download failed with status "
                           ++ numberToString (statusCode res)))), st)
    else
      match stream_error w destPath with
      | None => (Some (Return ()), writeFile destPath (body res) st)
      | Some e => (Some (Throw e), unlink destPath st)
      end.
Proof. intros Hget. simpl. by rewrite Hget. Qed.

(** C4. A response with status 200 is not rejected for its status: the
    body is written unless the write stream fails.  A response with
    status 301, 302, 307 or 308 is not rejected either: the outcome is
    that of downloading its [Location].  Every other status, the other
    2xx codes included, rejects with the message
    [Download failed with status] followed by the code. *)
Theorem downloadFile_status (fuel : nat) (w : World)
    (url destPath : jsstring) (st : state) (res : response) :
  get w (protocolFor url) url = Responds res →
  let st1 := emit (Get (protocolFor url) url) st in
  (statusCode res = 200%Z →
   downloadFile (S fuel) w (Some url) destPath st
   = match stream_error w destPath with
     | None => (Some (Return ()), writeFile destPath (body res) st1)
     | Some e => (Some (Throw e), unlink destPath st1)
     end)
  ∧ (isRedirect (statusCode res) = true →
     downloadFile (S fuel) w (Some url) destPath st
     = downloadFile fuel w (location res) destPath st1)
  ∧ (statusCode res ≠ 200%Z → isRedirect (statusCode res) = false →
     ∃ e, downloadFile (S fuel) w (Some url) destPath st = (Some (Throw e), st1)
          ∧ message e = js "Download failed with status "
                        ++ numberToString (statusCode res)).
Proof.
  intros Hget st1. rewrite (downloadFile_response _ _ _ _ _ _ Hget).
  fold st1. split_and!.
  - by intros ->.
  - by intros ->.
  - intros Hne ->. apply Z.eqb_neq in Hne as ->. simpl. by eexists.
Qed.

Lemma downloadFile_status_witness :
  (downloadFile 1 (example_world (js "linux") []) (Some (js "http://cdn.example/b"))
     (js "/work/a.tar.gz") initial).1 = Some (Return ())
  ∧ downloadFile 3 (example_world (js "linux") []) (Some (js "https://cdn.example/a"))
      (js "/work/a.tar.gz") initial
    = downloadFile 2 (example_world (js "linux") []) (Some (js "http://cdn.example/b"))
        (js "/work/a.tar.gz")
        (emit (Get https (js "https://cdn.example/a")) initial)
  ∧ ∃ e, downloadFile 1 (example_world (js "linux") []) (Some (js "https://cdn.example/x"))
           (js "/work/a.tar.gz") initial
         = (Some (Throw e), emit (Get https (js "https://cdn.example/x")) initial)
         ∧ message e = js "Download failed with status 404".
Proof.
  split_and!.
  - rewrite (proj1 (downloadFile_status 0 (example_world (js "linux") [])
               (js "http://cdn.example/b") (js "/work/a.tar.gz") initial
               (Response 200 None (js "ARCHIVE")) eq_refl) eq_refl).
    reflexivity.
  - apply (proj1 (proj2 (downloadFile_status 2 (example_world (js "linux") [])
               (js "https://cdn.example/a") (js "/work/a.tar.gz") initial
               (Response 301 (Some (js "http://cdn.example/b")) (js "Moved"))
               eq_refl)) eq_refl).
  - apply (proj2 (proj2 (downloadFile_status 0 (example_world (js "linux") [])
               (js "https://cdn.example/x") (js "/work/a.tar.gz") initial
               (Response 404 None (js "Not Found")) eq_refl)));
      by vm_compute.
Defined.

(** A response with status 204 is a 2xx response, and the download rejects
    it with its status code. *)
Lemma downloadFile_rejects_204 :
  let w := example_world (js "linux") [] in
  let url := js "https://cdn.example/empty" in
  get w (protocolFor url) url = Responds (Response 204 None [])
  ∧ ((200 <=? 204) && (204 <? 300))%Z = true
  ∧ (downloadFile 1 w (Some url) (js "/work/a.tar.gz") initial).1
    = Some (Throw (Error (js "Download failed with status 204"))).
Proof. by vm_compute. Qed.

Lemma downloadFile_chain (w : World) (destPath : jsstring)
    (url : jsstring) (hops : list jsstring) (target : jsstring)
    (final : response) :
  redirects w url hops target →
  get w (protocolFor target) target = Responds final →
  statusCode final = 200%Z →
  stream_error w destPath = None →
  ∀ fuel st, (length hops < fuel)%nat →
    downloadFile fuel w (Some url) destPath st
    = (Some (Return ()),
       State (<[destPath := body final]> (files st))
             (log st ++ ((λ u, Get (protocolFor u) u) <$> url :: hops))).
Proof.
  intros Hchain Hfinal Hok Hstream.
  induction Hchain as [url|url res next hops target Hget Hred Hloc _ IH];
    intros [|fuel] st Hfuel; simpl in Hfuel; try lia.
  - rewrite (downloadFile_response _ _ _ _ _ _ Hfinal).
    rewrite Hok. simpl. by rewrite Hstream.
  - rewrite (downloadFile_response _ _ _ _ _ _ Hget).
    cbv zeta. rewrite Hred, Hloc.
    rewrite (IH Hfinal) by lia. simpl.
    by rewrite <- app_assoc.
Qed.

Lemma downloadFile_loop (w : World) (destPath url : jsstring) (res : response) :
  get w (protocolFor url) url = Responds res →
  isRedirect (statusCode res) = true →
  location res = Some url →
  ∀ fuel st, (downloadFile fuel w (Some url) destPath st).1 = None.
Proof.
  intros Hget Hred Hloc fuel.
  induction fuel as [|fuel IH]; intros st; [done|].
  rewrite (downloadFile_response _ _ _ _ _ _ Hget).
  cbv zeta. rewrite Hred, Hloc. apply IH.
Qed.

(** C5. A chain of redirect responses of any length is followed: a request
    goes to each [Location] in turn, and what is written to the
    destination is the body of the response with status 200 that ends the
    chain; no other file changes.  There is no limit on the number of
    hops: a URL that redirects to itself keeps the download pending
    whatever the fuel. *)
Theorem downloadFile_follows_redirects (w : World) (destPath : jsstring) :
  (∀ (url : jsstring) (hops : list jsstring) (target : jsstring)
     (final : response) (fuel : nat) (st : state),
     redirects w url hops target →
     get w (protocolFor target) target = Responds final →
     statusCode final = 200%Z →
     stream_error w destPath = None →
     (length hops < fuel)%nat →
     downloadFile fuel w (Some url) destPath st
     = (Some (Return ()),
        State (<[destPath := body final]> (files st))
              (log st ++ ((λ u, Get (protocolFor u) u) <$> url :: hops))))
  ∧ (∀ (url : jsstring) (res : response) (fuel : nat) (st : state),
       get w (protocolFor url) url = Responds res →
       isRedirect (statusCode res) = true →
       location res = Some url →
       (downloadFile fuel w (Some url) destPath st).1 = None).
Proof.
  split.
  - intros. by eapply downloadFile_chain.
  - intros. by eapply downloadFile_loop.
Qed.

Lemma downloadFile_follows_redirects_witness :
  let w := example_world (js "linux") [] in
  let url := downloadUrl (js "0.0.2") (js "linux") (js "x64") in
  downloadFile 3 w (Some url) (js "/work/a.tar.gz") initial
  = (Some (Return ()),
     State {[ js "/work/a.tar.gz" := js "ARCHIVE" ]}
           [Get https url; Get https (js "https://cdn.example/a");
            Get http (js "http://cdn.example/b")])
  ∧ (downloadFile 1000 w (Some (js "https://cdn.example/loop"))
       (js "/work/a.tar.gz") initial).1 = None.
Proof.
  intros w url. split.
  - apply (proj1 (downloadFile_follows_redirects w (js "/work/a.tar.gz"))
             url [js "https://cdn.example/a"; js "http://cdn.example/b"]
             (js "http://cdn.example/b")
             (Response 200 None (js "ARCHIVE")) 3%nat initial).
    + apply (redirects_hop w url
               (Response 302 (Some (js "https://cdn.example/a")) (js "Found")));
        [reflexivity..|].
      apply (redirects_hop w (js "https://cdn.example/a")
               (Response 301 (Some (js "http://cdn.example/b")) (js "Moved")));
        [reflexivity..|].
      apply redirects_here.
    + reflexivity.
    + reflexivity.
    + reflexivity.
    + simpl. lia.
  - apply (proj2 (downloadFile_follows_redirects w (js "/work/a.tar.gz"))
             (js "https://cdn.example/loop")
             (Response 307 (Some (js "https://cdn.example/loop")) []));
      reflexivity.
Defined.

(** ** The event log only grows *)

Lemma extends_by_nil (st : state) : extends_by st [] st.
Proof. unfold extends_by. by rewrite app_nil_r. Qed.

Lemma extends_by_emit (st st' : state) (evs : list event) (e : event) :
  extends_by st evs st' → extends_by st (evs ++ [e]) (emit e st').
Proof. unfold extends_by. simpl. intros ->. by rewrite app_assoc. Qed.

(** A download adds nothing but requests to the log. *)
Lemma downloadFile_requests (w : World) (destPath : jsstring) (fuel : nat) :
  ∀ url st, ∃ urls,
    extends_by st (requests urls) (downloadFile fuel w url destPath st).2.
Proof.
  induction fuel as [|fuel IH]; intros url st; simpl.
  - exists []. apply extends_by_nil.
  - destruct url as [url|]; [|exists []; apply extends_by_nil].
    destruct (get w (protocolFor url) url) as [res|e];
      [|exists [url]; apply (extends_by_emit st st []), extends_by_nil].
    destruct (isRedirect (statusCode res)).
    { destruct (IH (location res) (emit (Get (protocolFor url) url) st))
        as [urls Hurls].
      exists (url :: urls). unfold extends_by in *. rewrite Hurls. simpl.
      by rewrite <- app_assoc. }
    exists [url]. unfold extends_by.
    destruct (negb _); [done|]. by destruct (stream_error w destPath).
Qed.

(** Whether and how a download settles does not depend on the state it
    starts in. *)
Lemma downloadFile_outcome (w : World) (destPath : jsstring) (fuel : nat) :
  ∀ url st st',
    (downloadFile fuel w url destPath st).1
    = (downloadFile fuel w url destPath st').1.
Proof.
  induction fuel as [|fuel IH]; intros url st st'; simpl; [done|].
  destruct url as [url|]; [|done].
  destruct (get w (protocolFor url) url) as [res|e]; [|done].
  destruct (isRedirect (statusCode res)); [apply IH|].
  destruct (negb _); [done|]. by destruct (stream_error w destPath).
Qed.

Lemma existsb_requests (p : event → bool) (urls : list jsstring) :
  (∀ pr url, p (Get pr url) = false) → existsb p (requests urls) = false.
Proof.
  intros Hp. induction urls as [|url urls IH]; simpl; [done|].
  by rewrite Hp, IH.
Qed.

Lemma downloadFile_first_request (w : World) (destPath url : jsstring)
    (fuel : nat) (st : state) :
  ∃ urls, extends_by st (requests (url :: urls))
            (downloadFile (S fuel) w (Some url) destPath st).2.
Proof.
  simpl. destruct (get w (protocolFor url) url) as [res|e];
    [|exists []; apply (extends_by_emit st st []), extends_by_nil].
  destruct (isRedirect (statusCode res)).
  { destruct (downloadFile_requests w destPath fuel (location res)
                (emit (Get (protocolFor url) url) st)) as [urls Hurls].
    exists urls. unfold extends_by in *. rewrite Hurls. simpl.
    by rewrite <- app_assoc. }
  exists []. unfold extends_by.
  destruct (negb _); [done|]. by destruct (stream_error w destPath).
Qed.

(** The export loop exports every entry once, in order, and counts
    them. *)
Lemma export_entries_spec (entries : jsobject) (count : Z) (st : state) :
  export_entries entries count st
  = ((count + Z.of_nat (length entries))%Z,
     State (files st)
           (log st ++ ((λ kv, ExportVariable kv.1 kv.2) <$> entries))).
Proof.
  revert count st. induction entries as [|[k v] entries IH]; intros count st.
  - simpl. rewrite Z.add_0_r, app_nil_r. by destruct st.
  - cbn [export_entries]. rewrite IH. f_equal; [cbn [length]; lia|].
    simpl. by rewrite <- app_assoc.
Qed.

Ltac extends_by_cases :=
  repeat match goal with
    | |- context [match ?c with Return _ => _ | Throw _ => _ end] =>
        destruct c
    | |- context [match ?o with Some _ => _ | None => _ end] => destruct o
    | |- context [if ?b then _ else _] => destruct b
    end;
  eexists; unfold extends_by; simpl; rewrite <- ?app_assoc; simpl;
  reflexivity.

Lemma export_output_extends (output : jsstring) (st : state) :
  ∃ evs, extends_by st evs (export_output output st).2.
Proof.
  unfold export_output. destruct (falsy (trim output)).
  { eexists. unfold extends_by. reflexivity. }
  destruct (parseEnvOutput output) as [envVars|e].
  - rewrite export_entries_spec. eexists. unfold extends_by. simpl.
    rewrite <- !app_assoc. reflexivity.
  - eexists. unfold extends_by. reflexivity.
Qed.

Lemma configure_and_run_extends (w : World) (config : jsstring) (st : state) :
  ∃ evs, extends_by st evs (configure_and_run w config st).2.
Proof.
  unfold configure_and_run.
  destruct (writeFileSync_error w (configPath w));
    [exists []; apply extends_by_nil|].
  destruct (exit (exec w (binaryPath w) [js "env"])) as [exitCode|e].
  - destruct (negb (exitCode =? 0)%Z).
    + extends_by_cases.
    + match goal with
      | |- context [export_output ?o ?s] =>
          destruct (export_output_extends o s) as [evs Hevs]
      end.
      eexists. unfold extends_by in *. rewrite Hevs. simpl.
      rewrite <- !app_assoc. reflexivity.
  - extends_by_cases.
Qed.

Lemma install_and_run_extends (w : World) (config : jsstring) (st : state) :
  ∃ evs, extends_by st evs (install_and_run w config st).2.
Proof.
  unfold install_and_run.
  destruct (exit (exec w (js "tar") _)); [|extends_by_cases].
  destruct (unlinkSync_error w (archivePath w)); [extends_by_cases|].
  destruct (exit (exec w (js "chmod") _)); [|extends_by_cases].
  match goal with
  | |- context [configure_and_run w config ?s] =>
      destruct (configure_and_run_extends w config s) as [evs Hevs]
  end.
  eexists. unfold extends_by in *. rewrite Hevs. simpl.
  rewrite <- !app_assoc. reflexivity.
Qed.

(** ** Claims about the run *)

(** C1. On a platform other than darwin and linux the run ends at once
    with a single [setFailed] and nothing else: no request, no file
    change, no subprocess; once the inputs are read, its message is the
    unsupported-platform message.  On darwin and linux the check passes
    and the run goes on to announce the platform and request the
    download URL. *)
Theorem run_platform_check (fuel : nat) (w : World) (st : state) :
  (process_platform w ≠ js "darwin" → process_platform w ≠ js "linux" →
   ∃ msg, run fuel w st = (true, State (files st) (log st ++ [SetFailed msg]))
          ∧ (returns (getInput_config w) →
             msg = js "Unsupported platform: " ++ process_platform w
                   ++ js ". Only darwin and linux are supported."))
  ∧ (process_platform w = js "darwin" ∨ process_platform w = js "linux" →
     returns (getInput_config w) →
     let url := downloadUrl (version w) (process_platform w) (process_arch w) in
     ∃ evs,
       log (run (S fuel) w st).2
       = log st
         ++ [Info (js "Detected platform: "
                   ++ platformString (process_platform w) (process_arch w));
             Info (js "Downloading sstart " ++ normalizeVersion (version w)
                   ++ js " from: " ++ url);
             Get https url]
         ++ evs).
Proof.
  split.
  - intros Hdarwin Hlinux. unfold run, run_try.
    destruct (getInput_config w) as [config|e].
    + rewrite decide_True by done. eexists. split; [reflexivity|done].
    + exists (message e). split; [reflexivity|]. by intros [? ?].
  - intros Hsupported [config Hconfig] url. unfold run, run_try.
    rewrite Hconfig.
    rewrite decide_False by (intros [? ?]; by destruct Hsupported).
    cbv zeta. fold url.
    match goal with
    | |- context [downloadFile _ _ _ _ ?s] =>
        destruct (downloadFile_first_request w (archivePath w) url fuel s)
          as [urls Hurls]
    end.
    destruct (downloadFile (S fuel) w (Some url) (archivePath w) _)
      as [[[[]|e]|] st3]; unfold extends_by in Hurls; simpl in Hurls.
    + destruct (install_and_run_extends w config st3) as [evs Hevs].
      destruct (install_and_run w config st3) as [[[]|e] st4];
        unfold extends_by in Hevs; simpl in *; rewrite Hevs, Hurls;
        rewrite <- !app_assoc; simpl; eauto.
    + simpl. rewrite Hurls, <- !app_assoc. simpl. eauto.
    + simpl. rewrite Hurls, <- !app_assoc. simpl. eauto.
Qed.

Lemma run_platform_check_witness :
  run 0 (example_world (js "win32") []) initial
  = (true, State ∅ [SetFailed (js "Unsupported platform: win32. Only darwin and linux are supported.")])
  ∧ ∃ evs, log (run 1 (example_world (js "linux") []) initial).2
           = [Info (js "Detected platform: Linux_amd64");
              Info (js "Downloading sstart v0.0.2 from: https://github.com/dirathea/sstart/releases/download/v0.0.2/sstart_Linux_amd64.tar.gz");
              Get https (js "https://github.com/dirathea/sstart/releases/download/v0.0.2/sstart_Linux_amd64.tar.gz")]
             ++ evs.
Proof.
  split.
  - destruct (proj1 (run_platform_check 0 (example_world (js "win32") []) initial))
      as (msg & Hrun & Hmsg); [by vm_compute..|].
    rewrite Hrun, Hmsg; [reflexivity|]. by eexists.
  - apply (proj2 (run_platform_check 0 (example_world (js "linux") []) initial)).
    + by right.
    + by eexists.
Defined.

Lemma trim_blank (s : jsstring) : forallb isTrimmed s = true → trim s = [].
Proof.
  intros Hs. unfold trim.
  assert (Hstart : trimStart s = []).
  { induction s as [|c s IH]; simpl in *; [done|].
    apply andb_prop in Hs as [-> Hs]. by apply IH. }
  by rewrite Hstart.
Qed.

(** C9. When every step before it has succeeded and the captured
    standard output is empty or consists of white space and line
    terminators only, the run settles after a last event which is the
    warning; it exports no variable and does not call [setFailed]. *)
Theorem run_empty_output (fuel : nat) (w : World) (st : state) :
  returns (getInput_config w) →
  process_platform w = js "darwin" ∨ process_platform w = js "linux" →
  (downloadFile fuel w
     (Some (downloadUrl (version w) (process_platform w) (process_arch w)))
     (archivePath w) st).1 = Some (Return ()) →
  returns (exit (exec w (js "tar")
                   [js "-xzf"; archivePath w; js "-C"; process_cwd w])) →
  unlinkSync_error w (archivePath w) = None →
  returns (exit (exec w (js "chmod") [js "+x"; binaryPath w])) →
  writeFileSync_error w (configPath w) = None →
  exit (exec w (binaryPath w) [js "env"]) = Return 0%Z →
  forallb isTrimmed (stdout (exec w (binaryPath w) [js "env"])) = true →
  ∃ st' evs,
    run fuel w st = (true, st')
    ∧ log st' = log st ++ evs
    ∧ last evs = Some (Warning (js "sstart env produced no output"))
    ∧ existsb isExportVariable evs = false
    ∧ existsb isSetFailed evs = false
    ∧ succeeded st' = succeeded st.
Proof.
  intros [config Hconfig] Hsupported Hdownload [? Htar] Hunlink [? Hchmod]
    Hwrite Hexit Hblank%trim_blank.
  unfold run, run_try. rewrite Hconfig.
  rewrite decide_False by (intros [? ?]; by destruct Hsupported).
  cbv zeta.
  match goal with
  | |- context [downloadFile fuel w ?u ?d ?s] =>
      destruct (downloadFile_requests w d fuel u s) as [urls Hurls];
      rewrite (downloadFile_outcome w d fuel u st s) in Hdownload;
      destruct (downloadFile fuel w u d s) as [outcome st3]
  end.
  simpl in Hdownload. subst outcome. unfold extends_by in Hurls.
  simpl in Hurls.
  unfold install_and_run. rewrite Htar, Hunlink, Hchmod.
  unfold configure_and_run. rewrite Hwrite, Hexit. simpl negb. cbv iota.
  unfold export_output. rewrite Hblank. simpl falsy. cbv iota.
  set (before :=
         [Info (js "Detected platform: "
                ++ platformString (process_platform w) (process_arch w));
          Info (js "Downloading sstart " ++ normalizeVersion (version w)
                ++ js " from: "
                ++ downloadUrl (version w) (process_platform w)
                     (process_arch w))]) in *.
  set (after :=
         [Info (js "Extracting archive...");
          Exec (js "tar") [js "-xzf"; archivePath w; js "-C"; process_cwd w];
          Exec (js "chmod") [js "+x"; binaryPath w];
          AddPath (process_cwd w);
          Info (js "Added " ++ process_cwd w ++ js " to PATH");
          Info (js "Created .sstart.yml configuration file");
          Info (js "Running sstart env...");
          Exec (binaryPath w) [js "env"]]).
  set (warning := Warning (js "sstart env produced no output")).
  assert (Hlog : log st3 = log st ++ before ++ requests urls).
  { rewrite Hurls. unfold emit; cbn [log]. by rewrite <- !app_assoc. }
  assert (Hquiet : ∀ p : event → bool,
            (∀ pr u, p (Get pr u) = false) →
            (∀ m, p (Info m) = false) → (∀ c a, p (Exec c a) = false) →
            (∀ d, p (AddPath d) = false) → (∀ m, p (Warning m) = false) →
            existsb p ((before ++ requests urls ++ after) ++ [warning]) = false).
  { intros p Hget Hinfo Hexec Hpath Hwarn.
    rewrite !existsb_app, existsb_requests by done.
    unfold before, after, warning. cbn [existsb].
    by rewrite !Hinfo, !Hexec, Hpath, Hwarn. }
  eexists _, ((before ++ requests urls ++ after) ++ [warning]).
  split; [reflexivity|].
  assert (Hfinal : ∀ fs,
            log (emit warning
                   (fold_left (λ s e, emit e s) after (State fs (log st3))))
            = log st ++ (before ++ requests urls ++ after) ++ [warning]).
  { intros fs. unfold emit, after; cbn [fold_left log files].
    rewrite Hlog. by rewrite <- !app_assoc. }
  split; [apply (Hfinal ∅)|].
  split; [apply last_snoc|].
  split; [by apply Hquiet|]. split; [by apply Hquiet|].
  unfold succeeded. f_equal.
  match goal with
  | |- existsb _ (log ?s) = _ =>
      assert (Hst : log s = log st ++ (before ++ requests urls ++ after)
                                  ++ [warning]) by apply (Hfinal ∅)
  end.
  rewrite Hst, existsb_app, Hquiet by done. apply orb_false_r.
Qed.

Lemma run_empty_output_witness :
  let w := example_world (js "linux") (js "  " ++ [10] ++ js " ") in
  ∃ st' evs,
    run 3 w initial = (true, st')
    ∧ log st' = log initial ++ evs
    ∧ last evs = Some (Warning (js "sstart env produced no output"))
    ∧ existsb isExportVariable evs = false
    ∧ existsb isSetFailed evs = false
    ∧ succeeded st' = succeeded initial.
Proof.
  intros w. apply (run_empty_output 3 w initial).
  - by eexists.
  - by right.
  - by vm_compute.
  - by eexists.
  - reflexivity.
  - by eexists.
  - reflexivity.
  - reflexivity.
  - by vm_compute.
Defined.

Example example_run_log :
  run 3 (example_world (js "linux") (js "  " ++ [10] ++ js " ")) initial
  = (true,
     State {[ js "/work/.sstart.yml" := js "providers: []" ]}
       [Info (js "Detected platform: Linux_amd64");
        Info (js "Downloading sstart v0.0.2 from: https://github.com/dirathea/sstart/releases/download/v0.0.2/sstart_Linux_amd64.tar.gz");
        Get https (js "https://github.com/dirathea/sstart/releases/download/v0.0.2/sstart_Linux_amd64.tar.gz");
        Get https (js "https://cdn.example/a");
        Get http (js "http://cdn.example/b");
        Info (js "Extracting archive...");
        Exec (js "tar") [js "-xzf"; js "/work/sstart_Linux_amd64.tar.gz";
                         js "-C"; js "/work"];
        Exec (js "chmod") [js "+x"; js "/work/sstart"];
        AddPath (js "/work");
        Info (js "Added /work to PATH");
        Info (js "Created .sstart.yml configuration file");
        Info (js "Running sstart env...");
        Exec (js "/work/sstart") [js "env"];
        Warning (js "sstart env produced no output")]).
Proof. by vm_compute. Qed.

(** * Further properties *)

(** ** White space around a line *)

Lemma trimStart_all (s : jsstring) :
  forallb isTrimmed s = true → trimStart s = [].
Proof.
  induction s as [|c s IH]; simpl; [done|].
  intros [-> Hs]%andb_prop. by apply IH.
Qed.

Lemma trimStart_pad (pad s : jsstring) :
  forallb isTrimmed pad = true → trimStart (pad ++ s) = trimStart s.
Proof.
  induction pad as [|c pad IH]; simpl; [done|].
  intros [-> Hpad]%andb_prop. by apply IH.
Qed.

Lemma trimStart_app (s pad : jsstring) :
  trimStart (s ++ pad)
  = if forallb isTrimmed s then trimStart pad else trimStart s ++ pad.
Proof.
  induction s as [|c s IH]; simpl; [done|].
  destruct (isTrimmed c); simpl; [apply IH|done].
Qed.

Lemma forallb_rev (p : N → bool) (s : jsstring) :
  forallb p (rev s) = forallb p s.
Proof.
  induction s as [|c s IH]; simpl; [done|].
  rewrite forallb_app, IH. simpl. rewrite andb_true_r. apply andb_comm.
Qed.

Lemma trimEnd_pad (s pad : jsstring) :
  forallb isTrimmed pad = true → trimEnd (s ++ pad) = trimEnd s.
Proof.
  intros Hpad. unfold trimEnd. rewrite rev_app_distr.
  by rewrite trimStart_pad by by rewrite forallb_rev.
Qed.

Lemma trim_pad (before line after : jsstring) :
  forallb isTrimmed before = true → forallb isTrimmed after = true →
  trim (before ++ line ++ after) = trim line.
Proof.
  intros Hbefore Hafter. unfold trim.
  rewrite trimStart_pad by done. rewrite trimStart_app.
  destruct (forallb isTrimmed line) eqn:Hline.
  - by rewrite (trimStart_all after), (trimStart_all line).
  - by apply trimEnd_pad.
Qed.

Lemma last_rev (s : jsstring) : last (rev s) = head s.
Proof. destruct s as [|c s]; simpl; [done|]. apply last_snoc. Qed.

Lemma trimStart_head (s : jsstring) (c : N) :
  head (trimStart s) = Some c → isTrimmed c = false.
Proof.
  induction s as [|d s IH]; simpl; [done|].
  destruct (isTrimmed d) eqn:Hd; [done|]. simpl. by intros [= <-].
Qed.

Lemma trim_last (s : jsstring) (c : N) :
  last (trim s) = Some c → isTrimmed c = false.
Proof.
  unfold trim, trimEnd. rewrite last_rev. apply trimStart_head.
Qed.

(** X3. White space and line terminators before and after a line, a
    carriage return left by a CRLF line ending included, make no
    difference to what the line does. *)
Theorem parse_line_ignores_padding (envVars : jsobject)
    (before line after : jsstring) :
  forallb isTrimmed before = true → forallb isTrimmed after = true →
  parse_line envVars (before ++ line ++ after) = parse_line envVars line.
Proof.
  intros Hbefore Hafter. unfold parse_line. by rewrite trim_pad.
Qed.

Lemma parse_line_ignores_padding_witness :
  parse_line [] ([9; 32] ++ js "KEY=value" ++ [13])
  = parse_line [] (js "KEY=value").
Proof.
  apply (parse_line_ignores_padding [] [9; 32] (js "KEY=value") [13]);
    reflexivity.
Defined.

(** ** Lines the parser drops *)

Lemma identifier_no_equals (key : jsstring) :
  isIdentifier key = true → 61 ∉ key.
Proof.
  destruct key as [|c word]; [done|]. simpl.
  intros [Hc Hword]%andb_prop. rewrite forallb_forall in Hword.
  intros [<-|Hin]%elem_of_cons; [by vm_compute in Hc|].
  apply list_elem_of_In, Hword in Hin. by vm_compute in Hin.
Qed.

(** The first [=] splits a line in one way only. *)
Lemma key_value_unique (key key' rest rest' : jsstring) :
  61 ∉ key → 61 ∉ key' →
  key ++ 61 :: rest = key' ++ 61 :: rest' → key = key' ∧ rest = rest'.
Proof.
  revert key'. induction key as [|c key IH]; intros [|c' key'] Hk Hk'; simpl.
  - by intros [= ->].
  - intros [= <- _]. destruct Hk'. apply list_elem_of_here.
  - intros [= -> _]. destruct Hk. apply list_elem_of_here.
  - intros [= -> Heq].
    apply not_elem_of_cons in Hk as [_ Hk].
    apply not_elem_of_cons in Hk' as [_ Hk'].
    destruct (IH key' Hk Hk' Heq) as [-> ->]. done.
Qed.

(** X4. A line whose value contains a line terminator that trimming does
    not remove (a carriage return in the middle, say) is dropped without
    an error, although it starts with an identifier and [=]. *)
Theorem parse_line_drops_line_terminator (envVars : jsobject)
    (line key rest : jsstring) :
  trim line = key ++ 61 :: rest →
  isIdentifier key = true →
  noLineTerminator rest = false →
  parse_line envVars line = Return envVars.
Proof.
  intros Htrim Hkey Hrest.
  destruct (parse_line_cases envVars line)
    as [H|(k & v & Htrim' & Hk & Hv & _)]; [done|].
  rewrite Htrim in Htrim'.
  apply key_value_unique in Htrim' as [_ ->];
    [congruence|by apply identifier_no_equals..].
Qed.

Lemma parse_line_drops_line_terminator_witness :
  parse_line [(js "A", js "1")] (js "KEY=first" ++ [13] ++ js "second")
  = Return [(js "A", js "1")].
Proof.
  apply (parse_line_drops_line_terminator [(js "A", js "1")]
           (js "KEY=first" ++ [13] ++ js "second") (js "KEY")
           (js "first" ++ [13] ++ js "second")); reflexivity.
Defined.

(** ** What a parsed object contains *)

Lemma define_own_Forall (P : jsstring * jsstring → Prop)
    (key value : jsstring) (o : jsobject) :
  P (key, value) → Forall P o → Forall P (define_own key value o).
Proof.
  intros Hnew. induction 1 as [|[k v] o Hkv Ho IH]; simpl.
  - by repeat constructor.
  - destruct (decide (k = key)); by constructor.
Qed.

Lemma last_after_equals (key value : jsstring) (c : N) :
  last value = Some c → last (key ++ 61 :: value) = Some c.
Proof.
  intros Hlast. destruct value as [|d value]; [done|].
  change (key ++ 61 :: d :: value) with (key ++ [61] ++ d :: value).
  by rewrite app_assoc, last_app_cons.
Qed.

Lemma parse_line_wellformed (envVars envVars' : jsobject) (line : jsstring) :
  Forall wellformed_entry envVars →
  parse_line envVars line = Return envVars' →
  Forall wellformed_entry envVars'.
Proof.
  intros Hok.
  destruct (parse_line_cases envVars line)
    as [->|(key & value & Htrim & Hkey & Hvalue & ->)].
  - by intros [= <-].
  - intros [= <-]. unfold set_property.
    case_decide as Hproto; [done|].
    apply define_own_Forall; [|done].
    split_and!; simpl; [done..|].
    intros c Hc. apply (trim_last line). rewrite Htrim.
    by apply last_after_equals.
Qed.

Lemma parse_lines_wellformed (lines : list jsstring)
    (envVars envVars' : jsobject) :
  Forall wellformed_entry envVars →
  parse_lines envVars lines = Return envVars' →
  Forall wellformed_entry envVars'.
Proof.
  revert envVars. induction lines as [|line lines IH]; intros envVars Hok; simpl.
  - by intros [= <-].
  - destruct (parse_line envVars line) as [o|e] eqn:Hline; simpl; [|done].
    apply IH. by eapply parse_line_wellformed.
Qed.

(** X1. Whatever the input, the parsed object lists no key twice; every
    key is an identifier other than [__proto__], and no value contains a
    line terminator or ends in white space. *)
Theorem parseEnvOutput_entries_wellformed (output : jsstring) :
  ∃ envVars,
    parseEnvOutput output = Return envVars
    ∧ NoDup envVars.*1
    ∧ Forall wellformed_entry envVars.
Proof.
  destruct (parse_lines_total (split 10 output) []) as [envVars Hparse].
  exists envVars. split_and!; [done| |].
  - eapply parse_lines_NoDup; [|done]. constructor.
  - eapply parse_lines_wellformed; [|done]. constructor.
Qed.

Lemma parse_lines_last_wins_witness :
  ∃ envVars',
    parse_lines [] [js "A=1"; js "B=2"; js "A=3"; js "C=4"] = Return envVars'
    ∧ get_own (js "A") envVars' = Some (js "3")
    ∧ (NoDup ([] : jsobject).*1 →
       filter (λ kv, kv.1 = js "A") envVars' = [(js "A", js "3")]).
Proof.
  apply (parse_lines_last_wins [] [js "A=1"; js "B=2"] [js "C=4"]
           (js "A=3") (js "A") (js "3")); try by vm_compute.
  repeat constructor. intros rest. by vm_compute.
Defined.



(** ** Inputs as a whole *)

Lemma bind_Return {A} (c : completion A) : (a ← c; Return a) = c.
Proof. by destruct c. Qed.

(** X5. A newline at the end of the output changes nothing. *)
Theorem parseEnvOutput_trailing_newline (output : jsstring) :
  parseEnvOutput (output ++ [10]) = parseEnvOutput output.
Proof.
  unfold parseEnvOutput. cbv zeta. rewrite split_app, parse_lines_app.
  change (split 10 []) with [[] : jsstring].
  destruct (parse_lines [] (split 10 output)) as [o|e]; [|done].
  reflexivity.
Qed.

(** X6. The lines are taken in order, each from the object the lines
    before it have built: parsing two outputs joined by a newline is
    parsing the second from the result of the first. *)
Theorem parseEnvOutput_app (first second : jsstring) :
  parseEnvOutput (first ++ 10 :: second)
  = envVars ← parseEnvOutput first; parse_lines envVars (split 10 second).
Proof.
  unfold parseEnvOutput. cbv zeta. by rewrite split_app, parse_lines_app.
Qed.

Lemma split_Forall (p : N → bool) (sep : N) (s : jsstring) :
  forallb p s = true → Forall (λ piece, forallb p piece = true) (split sep s).
Proof.
  induction s as [|c s IH]; simpl; [by repeat constructor|].
  intros [Hc Hs]%andb_prop. specialize (IH Hs).
  destruct (c =? sep); [by constructor|].
  destruct (split sep s) as [|piece pieces]; [by repeat constructor; simpl; rewrite Hc|].
  apply Forall_cons in IH as [Hpiece Hpieces].
  constructor; [|done]. simpl. by rewrite Hc.
Qed.

Lemma parse_lines_blank (lines : list jsstring) (envVars : jsobject) :
  Forall (λ line, forallb isTrimmed line = true) lines →
  parse_lines envVars lines = Return envVars.
Proof.
  induction 1 as [|line lines Hline _ IH]; simpl; [done|].
  rewrite parse_line_skips by (left; by apply trim_blank). apply IH.
Qed.

(** X7. An output made of white space and line terminators only parses
    to the empty object, so the parser agrees with the guard of [run]
    that such an output holds no variable. *)
Theorem parseEnvOutput_blank (output : jsstring) :
  forallb isTrimmed output = true → parseEnvOutput output = Return [].
Proof.
  intros Hblank. apply parse_lines_blank. by apply split_Forall.
Qed.

Lemma parseEnvOutput_blank_witness :
  parseEnvOutput ([32; 9; 10; 13; 10; 160]) = Return [].
Proof. apply parseEnvOutput_blank. reflexivity. Defined.

(** ** The download and the files *)

Lemma downloadFile_touches (w : World) (destPath : jsstring) (fuel : nat)
    (url : option jsstring) (st : state) :
  touches_only [destPath] st (downloadFile fuel w url destPath st).2.
Proof.
  revert url st. induction fuel as [|fuel IH]; intros url st p Hp; simpl.
  - done.
  - destruct url as [url|]; [|done].
    destruct (get w (protocolFor url) url) as [res|e]; [|done].
    destruct (isRedirect (statusCode res)); [by rewrite IH|].
    destruct (negb _); [done|].
    apply not_elem_of_cons in Hp as [Hp _].
    destruct (stream_error w destPath); simpl.
    + by rewrite lookup_delete_ne.
    + by rewrite lookup_insert_ne.
Qed.

(** X9. A download leaves every file other than its destination as it
    was, whatever the responses. *)
Theorem downloadFile_frame (w : World) (destPath : jsstring) (fuel : nat)
    (url : option jsstring) (st : state) (path : jsstring) :
  path ≠ destPath →
  files (downloadFile fuel w url destPath st).2 !! path = files st !! path.
Proof.
  intros Hpath. apply downloadFile_touches.
  by intros ->%list_elem_of_singleton.
Qed.

Lemma downloadFile_frame_witness :
  files (downloadFile 3 (example_world (js "linux") [])
           (Some (downloadUrl (js "0.0.2") (js "linux") (js "x64")))
           (js "/work/a.tar.gz")
           (State {[ js "/work/other" := js "kept" ]} [])).2
    !! js "/work/other"
  = Some (js "kept").
Proof.
  rewrite downloadFile_frame by (by vm_compute). by vm_compute.
Defined.





(** X12. A redirect response without a [Location] header rejects the
    download with the [TypeError] of reading [startsWith] of
    [undefined]; one request was made and no file was touched. *)
Theorem downloadFile_redirect_without_location (fuel : nat) (w : World)
    (url destPath : jsstring) (st : state) (res : response) :
  get w (protocolFor url) url = Responds res →
  isRedirect (statusCode res) = true →
  location res = None →
  downloadFile (S (S fuel)) w (Some url) destPath st
  = (Some (Throw (TypeError
             (js "Cannot read properties of undefined (reading 'startsWith')"))),
     State (files st) (log st ++ [Get (protocolFor url) url])).
Proof.
  intros Hget Hredirect Hlocation.
  rewrite (downloadFile_response _ _ _ _ _ _ Hget).
  cbv zeta. by rewrite Hredirect, Hlocation.
Qed.

Lemma downloadFile_redirect_without_location_witness :
  downloadFile 2 (scenario scenario_get (commands_ok []) None)
    (Some (js "https://cdn.example/nowhere")) (js "/work/a.tar.gz") initial
  = (Some (Throw (TypeError
             (js "Cannot read properties of undefined (reading 'startsWith')"))),
     State ∅ [Get https (js "https://cdn.example/nowhere")]).
Proof.
  apply (downloadFile_redirect_without_location 0
           (scenario scenario_get (commands_ok []) None)
           (js "https://cdn.example/nowhere") (js "/work/a.tar.gz") initial
           (Response 302 None (js "Found"))); reflexivity.
Defined.

(** ** The export step *)

Lemma export_output_spec (output : jsstring) (st : state) (envVars : jsobject) :
  parseEnvOutput output = Return envVars →
  export_output output st
  = (Return (),
     State (files st)
       (log st ++
        if falsy (trim output)
        then [Warning (js "sstart env produced no output")]
        else Info (js "Parsing environment variables from sstart env output...")
             :: ((λ kv, ExportVariable kv.1 kv.2) <$> envVars)
             ++ [Info (js "Successfully set "
                       ++ numberToString (Z.of_nat (length envVars))
                       ++ js " environment variable(s)")])).
Proof.
  intros Hparse. unfold export_output. destruct (falsy (trim output)); [done|].
  rewrite Hparse, export_entries_spec. unfold emit; cbn [log files].
  by rewrite <- !app_assoc.
Qed.

(** X15. For an output that is not blank, the export step announces the
    parsing, exports every entry of the parsed object once and in its
    order, and then reports a count that is the number of entries; it
    changes no file and raises nothing. *)
Theorem export_output_exports_all (output : jsstring) (st : state) :
  falsy (trim output) = false →
  ∃ envVars,
    parseEnvOutput output = Return envVars
    ∧ export_output output st
      = (Return (),
         State (files st)
           (log st
            ++ [Info (js "Parsing environment variables from sstart env output...")]
            ++ ((λ kv, ExportVariable kv.1 kv.2) <$> envVars)
            ++ [Info (js "Successfully set "
                      ++ numberToString (Z.of_nat (length envVars))
                      ++ js " environment variable(s)")])).
Proof.
  intros Hblank.
  destruct (parse_lines_total (split 10 output) []) as [envVars Hparse].
  exists envVars. split; [done|].
  by rewrite (export_output_spec output st envVars Hparse), Hblank.
Qed.

Lemma export_output_exports_all_witness :
  ∃ envVars,
    parseEnvOutput (js "A=1" ++ [10] ++ js "B=2" ++ [10] ++ js "A=3")
    = Return envVars
    ∧ export_output (js "A=1" ++ [10] ++ js "B=2" ++ [10] ++ js "A=3") initial
      = (Return (),
         State ∅
           ([Info (js "Parsing environment variables from sstart env output...")]
            ++ ((λ kv, ExportVariable kv.1 kv.2) <$> envVars)
            ++ [Info (js "Successfully set "
                      ++ numberToString (Z.of_nat (length envVars))
                      ++ js " environment variable(s)")])).
Proof.
  apply (export_output_exports_all
           (js "A=1" ++ [10] ++ js "B=2" ++ [10] ++ js "A=3") initial).
  reflexivity.
Defined.

(** ** How the events of a run end *)

Lemma quietly_refl (st : state) : quietly st st.
Proof. exists []. by rewrite app_nil_r. Qed.

Lemma quietly_emit (st st' : state) (e : event) :
  isQuiet e = true → quietly st st' → quietly st (emit e st').
Proof.
  intros He (quiet & Hlog & Hquiet). exists (quiet ++ [e]). split.
  - simpl. by rewrite Hlog, app_assoc.
  - rewrite forallb_app, Hquiet. simpl. by rewrite He.
Qed.

Lemma quietly_files (st st' : state) (fs : gmap jsstring jsstring) :
  quietly st st' → quietly st (State fs (log st')).
Proof. done. Qed.

Lemma quietly_trans (st st' st'' : state) :
  quietly st st' → quietly st' st'' → quietly st st''.
Proof.
  intros (q & Hlog & Hq) (q' & Hlog' & Hq'). exists (q ++ q'). split.
  - by rewrite Hlog', Hlog, app_assoc.
  - by rewrite forallb_app, Hq, Hq'.
Qed.

Lemma ends_well_quietly (st st' : state) : quietly st st' → ends_well st st'.
Proof.
  intros (quiet & Hlog & Hquiet). exists quiet, []. split_and!.
  - by rewrite app_nil_r.
  - done.
  - constructor.
Qed.

Lemma ends_well_after (st st' st'' : state) :
  quietly st st' → ends_well st' st'' → ends_well st st''.
Proof.
  intros (q & Hlog & Hq) (q' & tail & Hlog' & Hq' & Htail).
  exists (q ++ q'), tail. split_and!.
  - by rewrite Hlog', Hlog, <- !app_assoc.
  - by rewrite forallb_app, Hq, Hq'.
  - done.
Qed.

Lemma ends_well_failed (st st' : state) (msg : jsstring) :
  quietly st st' → ends_well st (emit (SetFailed msg) st').
Proof.
  intros (quiet & Hlog & Hquiet). exists quiet, [SetFailed msg]. split_and!.
  - simpl. by rewrite Hlog, app_assoc.
  - done.
  - constructor.
Qed.

Lemma ends_well_failed_logged (st st' : state) (msg err : jsstring) :
  quietly st st' →
  ends_well st (emit (LogError err) (emit (SetFailed msg) st')).
Proof.
  intros (quiet & Hlog & Hquiet).
  exists quiet, [SetFailed msg; LogError err]. split_and!.
  - simpl. by rewrite Hlog, <- !app_assoc.
  - done.
  - constructor.
Qed.

Lemma downloadFile_quietly (w : World) (destPath : jsstring) (fuel : nat)
    (url : option jsstring) (st : state) :
  quietly st (downloadFile fuel w url destPath st).2.
Proof.
  destruct (downloadFile_requests w destPath fuel url st) as [urls Hurls].
  exists (requests urls). split; [done|]. clear Hurls.
  induction urls as [|u urls IH]; [done|]. simpl. apply IH.
Qed.

Ltac quietly_steps :=
  repeat first
    [ assumption
    | apply quietly_refl
    | apply quietly_emit; [reflexivity|]
    | unfold writeFile; apply quietly_files
    | unfold unlink; apply quietly_files ].

Lemma export_output_step (output : jsstring) (st st0 : state) :
  quietly st0 st → step_ends_well st0 (export_output output st).
Proof.
  intros Hst.
  destruct (parse_lines_total (split 10 output) []) as [envVars Hparse].
  rewrite (export_output_spec output st envVars Hparse).
  unfold step_ends_well. cbn [fst snd].
  apply (ends_well_after st0 st); [done|].
  destruct (falsy (trim output)).
  - apply ends_well_quietly.
    exists [Warning (js "sstart env produced no output")]. by split.
  - exists [Info (js "Parsing environment variables from sstart env output...")],
      (((λ kv, ExportVariable kv.1 kv.2) <$> envVars)
       ++ [Info (js "Successfully set "
                 ++ numberToString (Z.of_nat (length envVars))
                 ++ js " environment variable(s)")]).
    split_and!; [done..|]. constructor.
    + eapply parse_lines_NoDup; [|exact Hparse]. constructor.
    + eapply parse_lines_wellformed; [|exact Hparse]. constructor.
Qed.

Lemma configure_and_run_step (w : World) (config : jsstring) (st st0 : state) :
  quietly st0 st → step_ends_well st0 (configure_and_run w config st).
Proof.
  intros Hst. unfold configure_and_run. cbv zeta.
  destruct (writeFileSync_error w (configPath w)); [done|].
  destruct (exit (exec w (binaryPath w) [js "env"])) as [exitCode|e];
    [|unfold step_ends_well; cbn [fst snd]; quietly_steps].
  destruct (negb (exitCode =? 0)%Z).
  - unfold step_ends_well. cbn [fst snd].
    destruct (falsy (stderr (exec w (binaryPath w) [js "env"]))).
    + apply ends_well_failed. quietly_steps.
    + apply ends_well_failed_logged. quietly_steps.
  - apply export_output_step. quietly_steps.
Qed.

Lemma install_and_run_step (w : World) (config : jsstring) (st st0 : state) :
  quietly st0 st → step_ends_well st0 (install_and_run w config st).
Proof.
  intros Hst. unfold install_and_run. cbv zeta.
  destruct (exit (exec w (js "tar") _));
    [|unfold step_ends_well; cbn [fst snd]; apply ends_well_failed;
      quietly_steps].
  destruct (unlinkSync_error w (archivePath w));
    [unfold step_ends_well; cbn [fst snd]; apply ends_well_failed;
     quietly_steps|].
  destruct (exit (exec w (js "chmod") _));
    [|unfold step_ends_well; cbn [fst snd]; quietly_steps].
  apply configure_and_run_step. quietly_steps.
Qed.

Lemma run_ends_well (fuel : nat) (w : World) (st : state) :
  ends_well st (run fuel w st).2.
Proof.
  unfold run, run_try.
  destruct (getInput_config w) as [config|e]; cbv zeta;
    [|apply ends_well_failed, quietly_refl].
  case_decide; [apply ends_well_failed, quietly_refl|].
  match goal with
  | |- context [downloadFile fuel w ?u ?d ?s] =>
      pose proof (downloadFile_quietly w d fuel u s) as Hdownload;
      destruct (downloadFile fuel w u d s) as [[[[]|e]|] st3]
  end; cbn [snd] in Hdownload.
  - assert (Hst3 : quietly st st3)
      by (eapply quietly_trans; [|exact Hdownload]; quietly_steps).
    pose proof (install_and_run_step w config st3 st Hst3) as Hstep.
    unfold step_ends_well in Hstep.
    destruct (install_and_run w config st3) as [[[]|e] st4]; cbn [fst snd] in *.
    + done.
    + by apply ends_well_failed.
  - cbn [snd]. apply ends_well_failed.
    eapply quietly_trans; [|exact Hdownload]. quietly_steps.
  - cbn [snd]. apply ends_well_quietly.
    eapply quietly_trans; [|exact Hdownload]. quietly_steps.
Qed.

Lemma exported_app (evs evs' : list event) :
  exported (evs ++ evs') = exported evs ++ exported evs'.
Proof. apply omap_app. Qed.

Lemma exported_cons (e : event) (evs : list event) :
  exported (e :: evs) = exported [e] ++ exported evs.
Proof. apply (exported_app [e] evs). Qed.

Lemma quiet_events (quiet : list event) :
  forallb isQuiet quiet = true →
  List.filter isSetFailed quiet = [] ∧ exported quiet = [].
Proof.
  induction quiet as [|e quiet IH]; [done|]. simpl.
  intros [He Hquiet]%andb_prop. destruct (IH Hquiet) as [Hfailed Hexported].
  rewrite Hexported, Hfailed. by destruct e.
Qed.

Lemma exported_exports (entries : jsobject) :
  exported ((λ kv, ExportVariable kv.1 kv.2) <$> entries) = entries
  ∧ List.filter isSetFailed ((λ kv, ExportVariable kv.1 kv.2) <$> entries) = [].
Proof.
  induction entries as [|[k v] entries [IH1 IH2]]; [done|].
  rewrite fmap_cons, exported_cons, IH1. simpl. by rewrite IH2.
Qed.

Lemma ending_events (tail : list event) :
  ending tail →
  (length (List.filter isSetFailed tail) ≤ 1)%nat
  ∧ (List.filter isSetFailed tail ≠ [] → exported tail = [])
  ∧ NoDup (exported tail).*1
  ∧ Forall wellformed_entry (exported tail).
Proof.
  destruct 1 as [|msg|msg err|entries Hnodup Hok].
  - split_and!; [simpl; lia|done|constructor|constructor].
  - split_and!; [simpl; lia|done|constructor|constructor].
  - split_and!; [simpl; lia|done|constructor|constructor].
  - destruct (exported_exports entries) as [Hexported Hfailed].
    rewrite List.filter_app, Hfailed, exported_app, Hexported. simpl.
    change (exported [_]) with ([] : jsobject).
    rewrite app_nil_r. split_and!; [lia|done|done|done].
Qed.

(** X13. Whatever the world does, a run calls [setFailed] at most once,
    and a run that calls it exports no variable. *)
Theorem run_fails_at_most_once (fuel : nat) (w : World) (st : state) :
  ∃ evs,
    log (run fuel w st).2 = log st ++ evs
    ∧ (length (List.filter isSetFailed evs) ≤ 1)%nat
    ∧ (List.filter isSetFailed evs ≠ [] → exported evs = []).
Proof.
  destruct (run_ends_well fuel w st) as (quiet & tail & Hlog & Hquiet & Htail).
  exists (quiet ++ tail). split; [done|].
  destruct (quiet_events quiet Hquiet) as [Hfailed Hexported].
  destruct (ending_events tail Htail) as (Hone & Hnone & _ & _).
  by rewrite List.filter_app, Hfailed, exported_app, Hexported.
Qed.

(** X14. Whatever the world does, the variables a run exports have
    identifiers other than [__proto__] as names, no two of them the same
    name, and values without line terminators that do not end in white
    space. *)
Theorem run_exports_wellformed (fuel : nat) (w : World) (st : state) :
  ∃ evs,
    log (run fuel w st).2 = log st ++ evs
    ∧ NoDup (exported evs).*1
    ∧ Forall wellformed_entry (exported evs).
Proof.
  destruct (run_ends_well fuel w st) as (quiet & tail & Hlog & Hquiet & Htail).
  exists (quiet ++ tail). split; [done|].
  destruct (quiet_events quiet Hquiet) as [_ Hexported].
  destruct (ending_events tail Htail) as (_ & _ & Hnodup & Hok).
  by rewrite exported_app, Hexported.
Qed.

(** ** The files of a run *)

Lemma touches_only_refl (paths : list jsstring) (st : state) :
  touches_only paths st st.
Proof. done. Qed.

Lemma touches_only_emit (paths : list jsstring) (st st' : state) (e : event) :
  touches_only paths st st' → touches_only paths st (emit e st').
Proof. done. Qed.

Lemma touches_only_writeFile (paths : list jsstring) (st st' : state)
    (path data : jsstring) :
  path ∈ paths → touches_only paths st st' →
  touches_only paths st (writeFile path data st').
Proof.
  intros Hin Hst p Hp. simpl.
  rewrite lookup_insert_ne by (intros ->; done). by apply Hst.
Qed.

Lemma touches_only_unlink (paths : list jsstring) (st st' : state)
    (path : jsstring) :
  path ∈ paths → touches_only paths st st' →
  touches_only paths st (unlink path st').
Proof.
  intros Hin Hst p Hp. simpl.
  rewrite lookup_delete_ne by (intros ->; done). by apply Hst.
Qed.

Lemma touches_only_download (paths : list jsstring) (w : World)
    (destPath : jsstring) (fuel : nat) (url : option jsstring)
    (st st0 : state) :
  destPath ∈ paths → touches_only paths st0 st →
  touches_only paths st0 (downloadFile fuel w url destPath st).2.
Proof.
  intros Hin Hst p Hp. rewrite downloadFile_touches; [by apply Hst|].
  by intros ->%list_elem_of_singleton.
Qed.

Ltac touches_steps :=
  repeat first
    [ assumption
    | apply touches_only_refl
    | apply touches_only_emit
    | apply touches_only_writeFile; [set_solver|]
    | apply touches_only_unlink; [set_solver|] ].

Lemma export_output_touches (paths : list jsstring) (output : jsstring)
    (st st0 : state) :
  touches_only paths st0 st →
  touches_only paths st0 (export_output output st).2.
Proof.
  intros Hst.
  destruct (parse_lines_total (split 10 output) []) as [envVars Hparse].
  by rewrite (export_output_spec output st envVars Hparse).
Qed.

Lemma configure_and_run_touches (w : World) (config : jsstring)
    (st st0 : state) :
  touches_only [archivePath w; configPath w] st0 st →
  touches_only [archivePath w; configPath w] st0 (configure_and_run w config st).2.
Proof.
  intros Hst. unfold configure_and_run. cbv zeta.
  destruct (writeFileSync_error w (configPath w)); [done|].
  destruct (exit (exec w (binaryPath w) [js "env"])) as [exitCode|e];
    [|cbn [snd]; touches_steps].
  destruct (negb (exitCode =? 0)%Z).
  - cbn [snd]. destruct (falsy _); touches_steps.
  - apply export_output_touches. touches_steps.
Qed.

Lemma install_and_run_touches (w : World) (config : jsstring)
    (st st0 : state) :
  touches_only [archivePath w; configPath w] st0 st →
  touches_only [archivePath w; configPath w] st0 (install_and_run w config st).2.
Proof.
  intros Hst. unfold install_and_run. cbv zeta.
  destruct (exit (exec w (js "tar") _)); [|cbn [snd]; touches_steps].
  destruct (unlinkSync_error w (archivePath w)); [cbn [snd]; touches_steps|].
  destruct (exit (exec w (js "chmod") _)); [|cbn [snd]; touches_steps].
  apply configure_and_run_touches. touches_steps.
Qed.

(** X17. Whatever the world does, the only files a run writes or deletes
    itself are the downloaded archive and the configuration file. *)
Theorem run_frame (fuel : nat) (w : World) (st : state) (path : jsstring) :
  path ≠ archivePath w → path ≠ configPath w →
  files (run fuel w st).2 !! path = files st !! path.
Proof.
  intros Harchive Hconfig.
  cut (touches_only [archivePath w; configPath w] st (run fuel w st).2).
  { intros Htouch. apply Htouch.
    intros [->|[->|[]%elem_of_nil]%elem_of_cons]%elem_of_cons; done. }
  clear. unfold run, run_try.
  destruct (getInput_config w) as [config|e]; cbv zeta; [|done].
  case_decide; [done|].
  match goal with
  | |- context [downloadFile fuel w ?u ?d ?s] =>
      assert (Hdownload : touches_only [archivePath w; configPath w] st
                            (downloadFile fuel w u d s).2)
        by (apply touches_only_download; [set_solver|touches_steps]);
      destruct (downloadFile fuel w u d s) as [[[[]|e]|] st3]
  end; cbn [snd] in Hdownload; [|done..].
  pose proof (install_and_run_touches w config st3 st Hdownload) as Hstep.
  by destruct (install_and_run w config st3) as [[[]|e] st4].
Qed.

Lemma run_frame_witness :
  files (run 3 (example_world (js "linux") (js "A=1"))
           (State {[ js "/work/other" := js "kept" ]} [])).2
    !! js "/work/other"
  = Some (js "kept").
Proof.
  rewrite run_frame by (by vm_compute). by vm_compute.
Defined.

(** ** Failures of the steps of a run *)

(** X16. When the download is rejected, the run has announced the
    platform and the download, made the requests of the download, and
    then fails with [Could not download sstart binary:] and the message
    of the rejection; nothing is run and nothing is exported. *)
Theorem run_download_rejected (fuel : nat) (w : World) (st : state)
    (e : js_error) :
  returns (getInput_config w) →
  process_platform w = js "darwin" ∨ process_platform w = js "linux" →
  (downloadFile fuel w
     (Some (downloadUrl (version w) (process_platform w) (process_arch w)))
     (archivePath w) st).1 = Some (Throw e) →
  ∃ st' urls,
    run fuel w st = (true, st')
    ∧ log st'
      = log st
        ++ [Info (js "Detected platform: "
                  ++ platformString (process_platform w) (process_arch w));
            Info (js "Downloading sstart " ++ normalizeVersion (version w)
                  ++ js " from: "
                  ++ downloadUrl (version w) (process_platform w)
                       (process_arch w))]
        ++ requests urls
        ++ [SetFailed (js "Could not download sstart binary: " ++ message e)].
Proof.
  intros [config Hconfig] Hsupported Hdownload.
  unfold run, run_try. rewrite Hconfig.
  rewrite decide_False by (intros [? ?]; by destruct Hsupported).
  cbv zeta.
  match goal with
  | |- context [downloadFile fuel w ?u ?d ?s] =>
      destruct (downloadFile_requests w d fuel u s) as [urls Hurls];
      rewrite (downloadFile_outcome w d fuel u st s) in Hdownload;
      destruct (downloadFile fuel w u d s) as [outcome st3]
  end.
  simpl in Hdownload. subst outcome. unfold extends_by in Hurls.
  eexists _, urls. split; [reflexivity|].
  unfold emit in *; cbn [log snd] in *. rewrite Hurls.
  by rewrite <- !app_assoc.
Qed.

Lemma run_download_rejected_witness :
  ∃ st' urls,
    run 1 (example_world (js "darwin") []) initial = (true, st')
    ∧ log st'
      = [Info (js "Detected platform: Darwin_amd64");
         Info (js "Downloading sstart v0.0.2 from: https://github.com/dirathea/sstart/releases/download/v0.0.2/sstart_Darwin_amd64.tar.gz")]
        ++ requests urls
        ++ [SetFailed (js "Could not download sstart binary: Download failed with status 404")].
Proof.
  apply (run_download_rejected 1 (example_world (js "darwin") []) initial
           (Error (js "Download failed with status 404"))).
  - by eexists.
  - by left.
  - by vm_compute.
Defined.

(** X19. When [tar] fails, or when deleting the archive fails after [tar]
    has succeeded, the run fails with [Could not extract sstart binary:]
    and the message of the error: the files stay as the download left
    them, and neither [chmod] nor [sstart] is run. *)
Theorem install_and_run_extraction_fails (w : World) (config : jsstring)
    (st : state) (e : js_error) :
  exit (exec w (js "tar")
          [js "-xzf"; archivePath w; js "-C"; process_cwd w]) = Throw e
  ∨ (returns (exit (exec w (js "tar")
                      [js "-xzf"; archivePath w; js "-C"; process_cwd w]))
     ∧ unlinkSync_error w (archivePath w) = Some e) →
  install_and_run w config st
  = (Return (),
     State (files st)
       (log st
        ++ [Info (js "Extracting archive...");
            Exec (js "tar") [js "-xzf"; archivePath w; js "-C"; process_cwd w];
            SetFailed (js "Could not extract sstart binary: " ++ message e)])).
Proof.
  unfold install_and_run. cbv zeta.
  intros [->|[[code ->] ->]]; unfold emit; cbn [log files];
    by rewrite <- !app_assoc.
Qed.

Lemma install_and_run_extraction_fails_witness :
  install_and_run
    (scenario scenario_get (commands_ok []) (Some (Error (js "EPERM"))))
    (js "providers: []")
    (State {[ js "/work/sstart_Linux_amd64.tar.gz" := js "ARCHIVE" ]} [])
  = (Return (),
     State {[ js "/work/sstart_Linux_amd64.tar.gz" := js "ARCHIVE" ]}
       [Info (js "Extracting archive...");
        Exec (js "tar") [js "-xzf"; js "/work/sstart_Linux_amd64.tar.gz";
                         js "-C"; js "/work"];
        SetFailed (js "Could not extract sstart binary: EPERM")]).
Proof.
  rewrite (install_and_run_extraction_fails
             (scenario scenario_get (commands_ok []) (Some (Error (js "EPERM"))))
             (js "providers: []")
             (State {[ js "/work/sstart_Linux_amd64.tar.gz" := js "ARCHIVE" ]} [])
             (Error (js "EPERM")))
    by (right; split; [by eexists|reflexivity]).
  by vm_compute.
Defined.



(** ** The download URL and the helpers of the test suite *)

(** X20. A version written with the [v] prefix and the same version
    written without it give the same download URL. *)
Theorem downloadUrl_v_prefix (version platform arch : jsstring) :
  startsWith version (js "v") = false →
  downloadUrl (js "v" ++ version) platform arch
  = downloadUrl version platform arch.
Proof.
  intros Hv. unfold downloadUrl, normalizeVersion. cbv zeta. rewrite Hv.
  change (startsWith (js "v" ++ version) (js "v")) with true. done.
Qed.

Lemma downloadUrl_v_prefix_witness :
  downloadUrl (js "v" ++ js "1.2.3") (js "linux") (js "arm64")
  = downloadUrl (js "1.2.3") (js "linux") (js "arm64").
Proof. apply downloadUrl_v_prefix. reflexivity. Defined.

(** X21. The URL helper of the test suite builds the URL that [run]
    requests exactly when the architecture is not x64: for x64 the helper
    names the archive x86_64 where [run] names it amd64. *)
Theorem buildDownloadUrl_agrees (version platform arch : jsstring) :
  TestHelpers.buildDownloadUrl version platform arch
  = downloadUrl version platform arch
  ↔ arch ≠ js "x64".
Proof.
  unfold TestHelpers.buildDownloadUrl, downloadUrl, TestHelpers.getPlatformString,
    platformString, TestHelpers.normalizeVersion, normalizeVersion,
    TestHelpers.normalizeArchitecture, architecture.
  cbv zeta. destruct (decide (arch = js "x64")) as [->|Hne]; [|done].
  split; [|done]. intros Heq. exfalso.
  do 3 apply app_inv_head in Heq.
  rewrite <- !app_assoc in Heq. do 2 apply app_inv_head in Heq.
  by vm_compute in Heq.
Qed.

Lemma buildDownloadUrl_agrees_witness :
  TestHelpers.buildDownloadUrl (js "0.0.2") (js "linux") (js "arm64")
  = downloadUrl (js "0.0.2") (js "linux") (js "arm64")
  ∧ TestHelpers.buildDownloadUrl (js "0.0.2") (js "darwin") (js "x64")
    ≠ downloadUrl (js "0.0.2") (js "darwin") (js "x64").
Proof.
  split.
  - apply (proj2 (buildDownloadUrl_agrees (js "0.0.2") (js "linux") (js "arm64"))).
    by vm_compute.
  - intros Heq.
    by apply (proj1 (buildDownloadUrl_agrees (js "0.0.2") (js "darwin") (js "x64"))) in Heq.
Defined.

(** X22. Whatever [JSON.parse] does, the JSON variant of the parser
    returns nothing but plain objects, and every error it throws has a
    message that starts with
    [Failed to parse JSON output from sstart env: ]; on a blank output it
    returns the empty object without parsing. *)
Theorem json_parseEnvOutput_result {number : Type}
    (JSON_parse : jsstring → completion (TestHelpers.jsvalue number))
    (output : jsstring) :
  match TestHelpers.parseEnvOutput JSON_parse output with
  | Return envVars => ∃ props, envVars = TestHelpers.JObject props
  | Throw e =>
      ∃ reason,
        e = Error (js "Failed to parse JSON output from sstart env: " ++ reason)
  end
  ∧ (forallb isTrimmed output = true →
     TestHelpers.parseEnvOutput JSON_parse output
     = Return (TestHelpers.JObject [])).
Proof.
  unfold TestHelpers.parseEnvOutput. cbv zeta. split.
  - destruct (falsy (trim output)); [by eexists|].
    destruct (JSON_parse (trim output)) as [[]|e]; simpl; by eexists.
  - intros Hblank. by rewrite (trim_blank output Hblank).
Qed.

Lemma json_parseEnvOutput_result_witness :
  TestHelpers.parseEnvOutput
    (λ _, Throw (Error (js "Unexpected end of JSON input")) : completion (TestHelpers.jsvalue Z))
    [32; 10; 9]
  = Return (TestHelpers.JObject []).
Proof.
  apply (proj2 (json_parseEnvOutput_result
                  (λ _, Throw (Error (js "Unexpected end of JSON input"))
                     : completion (TestHelpers.jsvalue Z))
                  [32; 10; 9])).
  reflexivity.
Defined.

Lemma startsWith_v_cons (version : jsstring) :
  startsWith version (js "v") = true → version = js "v" ++ drop 1 version.
Proof.
  change (js "v") with [118]. destruct version as [|c version]; simpl; [done|].
  rewrite andb_true_r. by intros ->%N.eqb_eq.
Qed.

(** X23. In the hyphenated URL the release tag is [v] followed by the
    version that the archive name carries, whether or not the given
    version had the prefix; so both spellings of a version give the same
    URL. *)
Theorem hyphenated_url_versions (toLowerCase : jsstring → jsstring)
    (version platform arch : jsstring) :
  HyphenatedHelpers.normalizeVersion version
  = js "v" ++ HyphenatedHelpers.versionWithoutV version
  ∧ (startsWith version (js "v") = false →
     HyphenatedHelpers.buildDownloadUrl toLowerCase (js "v" ++ version)
       platform arch
     = HyphenatedHelpers.buildDownloadUrl toLowerCase version platform arch).
Proof.
  unfold HyphenatedHelpers.buildDownloadUrl,
    HyphenatedHelpers.normalizeVersion, HyphenatedHelpers.versionWithoutV.
  cbv zeta. split.
  - destruct (startsWith version (js "v")) eqn:Hv; [|done].
    by apply startsWith_v_cons.
  - intros ->. change (startsWith (js "v" ++ version) (js "v")) with true.
    done.
Qed.

Lemma hyphenated_url_versions_witness :
  HyphenatedHelpers.buildDownloadUrl (λ s, s) (js "v" ++ js "0.0.2")
    (js "darwin") (js "x64")
  = HyphenatedHelpers.buildDownloadUrl (λ s, s) (js "0.0.2")
      (js "darwin") (js "x64").
Proof.
  apply (proj2 (hyphenated_url_versions (λ s, s) (js "0.0.2")
                  (js "darwin") (js "x64"))).
  reflexivity.
Defined.
